(** * logs2plot: the rowhammer attack-log walker and its two aggregators

    A shallow embedding of [rowhammer_tester/scripts/logs2plot.py].

    - JSON objects are association lists in insertion order (Python dicts
      iterate in insertion order, and that order decides the dense row
      indices and the order of the plots); a key the script subscripts is an
      [option] field, [None] being the absent key (KeyError).
    - The script is a sequence of effects on module-level variables
      ([hammered_rows], [title], [aggressors_vs_victims]) and on the screen.
      It is embedded in a small state-and-exception monad whose state
      survives a raise, as Python's does.
    - matplotlib and numpy are outside the repository: a call that reaches
      [plt.show()] is recorded as an event carrying the data handed to
      [hist2d]; the pixels are not modelled. *)

From Stdlib Require Import ZArith List String Ascii Bool Arith Lia DecimalString.
Import ListNotations.
Local Open Scope string_scope.
Local Open Scope list_scope.
Local Open Scope Z_scope.

(** ** Python values and builtins *)

(** [str(n)] for an [int]. *)
Definition str (n : Z) : string := NilZero.string_of_int (Z.to_int n).

(** A reading of plain decimal strings; one possible behaviour of [int(s)]
    on the column labels of a log, used for concrete runs only. *)
Definition dec_int (s : string) : option Z :=
  option_map Z.of_int (NilZero.int_of_string s).

(** The exceptions the script can end with.  [SystemExit] carries the
    argument of [exit(...)], [None] when it is called without one. *)
Inductive exn : Type :=
| KeyError (key : string)
| IndexError
| TypeError
| NameError (name : string)
| ValueError (msg : string)
| ZeroDivisionError
| SystemExit (code : option Z).

Inductive result (A : Type) : Type :=
| Ok (a : A)
| Raise (e : exn).
Arguments Ok {A} a.
Arguments Raise {A} e.

(** The status the interpreter hands to the operating system: 0 after a
    normal end and after [SystemExit(None)], the integer of [SystemExit(n)],
    1 after any other uncaught exception. *)
Definition exit_status {A : Type} (r : result A) : Z :=
  match r with
  | Ok _ => 0
  | Raise (SystemExit None) => 0
  | Raise (SystemExit (Some n)) => n
  | Raise _ => 1
  end.

(** [enumerate(l)] *)
Definition enumerate {A : Type} (l : list A) : list (nat * A) :=
  combine (seq 0 (List.length l)) l.

(** [min(l)] and [max(l)] on a non-empty list of integers; the script
    reaches them only after the emptiness test below. *)
Definition py_min (l : list Z) : Z :=
  match l with [] => 0 | x :: l' => fold_left Z.min l' x end.
Definition py_max (l : list Z) : Z :=
  match l with [] => 0 | x :: l' => fold_left Z.max l' x end.

(** ** Dictionaries, in insertion order *)

Section Dict.
Context {K V : Type} (eqb : K -> K -> bool).

Fixpoint dict_get (k : K) (d : list (K * V)) : option V :=
  match d with
  | [] => None
  | (k', v) :: d' => if eqb k k' then Some v else dict_get k d'
  end.

(** [d[k] = v]: an existing key keeps its place, a new one goes last. *)
Fixpoint dict_set (k : K) (v : V) (d : list (K * V)) : list (K * V) :=
  match d with
  | [] => [(k, v)]
  | (k', v') :: d' =>
      if eqb k k' then (k', v) :: d' else (k', v') :: dict_set k v d'
  end.

(** [d.pop(k)] for its effect on [d]. *)
Definition dict_pop (k : K) (d : list (K * V)) : list (K * V) :=
  filter (fun kv => negb (eqb k (fst kv))) d.

(** [k in d] *)
Definition dict_has (k : K) (d : list (K * V)) : bool :=
  existsb (fun kv => eqb k (fst kv)) d.
End Dict.

(** ** The data of a log *)

(** One observed bit flip; the script only counts them. *)
Definition flip := Z.

(** The value under a row label in [errors_in_rows]. *)
Record RowErrors : Type := mkRowErrors {
  re_row : option Z;
  re_col : option (list (string * list flip));
  re_bitflips : option Z
}.

Definition ErrorsInRows := list (string * RowErrors).

Record AttackRecord : Type := mkAttackRecord {
  hammer_row_1 : option Z;
  hammer_row_2 : option Z;
  row_pairs : option (list (Z * Z));
  errors_in_rows : option ErrorsInRows
}.

(** A value of an attack set: the [read_count] number or an attack record. *)
Inductive set_entry : Type :=
| ReadCount (n : Z)
| Attack (r : AttackRecord).

Definition AttackSetResult := list (string * set_entry).
Definition AttackLog := list (string * AttackSetResult).

(** [argparse] result. *)
Record Args : Type := mkArgs {
  plot_columns : Z;
  aggressors_vs_victims_flag : bool;
  annotate : string
}.

(** ** What reaches the screen *)

Record single_plot : Type := mkSinglePlot {
  sp_title : string;
  sp_yticks : list nat;
  sp_row_labels : list string;
  sp_row_vals : list nat;
  sp_col_vals : list Z;
  sp_cols : Z;
  sp_col_step : Z
}.

Record aggregate_plot : Type := mkAggregatePlot {
  ap_title : string;
  ap_victims : list Z;
  ap_aggressors : list Z;
  ap_bitflips : list Z;
  ap_bins : Z * Z;
  ap_texts : list (Z * Z * Z)
}.

Inductive event : Type :=
| Stdout (msg : string)
| SinglePlot (p : single_plot)
| AggregatePlot (p : aggregate_plot).

Definition is_aggregate (e : event) : bool :=
  match e with AggregatePlot _ => true | _ => false end.

Definition aggregate_renders (t : list event) : list event :=
  filter is_aggregate t.

(** ** Module-level state of the script *)

Definition table := list (Z * list (string * RowErrors)).

(** [hammered_rows] and [title] are unbound until a record binds them and
    are never unbound again; [aggressors_vs_victims] is rebound to an empty
    dict before it is first read, so its unbound phase is not kept apart
    from the empty dict. *)
Record state : Type := mkState {
  hammered_rows : option (Z * Z);
  title : option string;
  aggressors_vs_victims : table;
  trace : list event
}.

Definition init_state : state :=
  mkState None None [] [].

(** ** The monad: state that survives an exception *)

Definition M (A : Type) : Type := state -> result A * state.

Definition ret {A : Type} (a : A) : M A := fun s => (Ok a, s).

Definition bind {A B : Type} (m : M A) (f : A -> M B) : M B :=
  fun s =>
    match m s with
    | (Ok a, s') => f a s'
    | (Raise e, s') => (Raise e, s')
    end.

Definition raise {A : Type} (e : exn) : M A := fun s => (Raise e, s).

Declare Scope py_scope.
Delimit Scope py_scope with py.
Notation "x <- m ;; k" := (bind m (fun x => k))
  (at level 61, m at next level, right associativity) : py_scope.
Notation "m ;; k" := (bind m (fun _ => k))
  (at level 61, right associativity) : py_scope.
Local Open Scope py_scope.

Definition lift {A : Type} (r : result A) : M A := fun s => (r, s).

Definition emit (e : event) : M unit :=
  fun s => (Ok tt,
            mkState (hammered_rows s) (title s) (aggressors_vs_victims s)
                    (trace s ++ [e])).

(** [print(msg)] *)
Definition print (msg : string) : M unit := emit (Stdout msg).

(** [exit()] *)
Definition py_exit {A : Type} : M A := raise (SystemExit None).

Fixpoint for_each {A : Type} (body : A -> M unit) (l : list A) : M unit :=
  match l with
  | [] => ret tt
  | x :: l' => body x ;; for_each body l'
  end.

(** Subscripting with a key: [d[key]]. *)
Definition getitem {A : Type} (key : string) (field : option A) : result A :=
  match field with
  | Some a => Ok a
  | None => Raise (KeyError key)
  end.

(** Pure computations that can raise. *)
Definition rbind {A B : Type} (r : result A) (f : A -> result B) : result B :=
  match r with
  | Ok a => f a
  | Raise e => Raise e
  end.

(** ** The script *)

Section Script.

(** [int(s)] on a [str]: [Some n], or [None] where it raises ValueError.
    The builtin is not part of the repository; every property below holds
    whatever it does. *)
Variable int_of_str : string -> option Z.

Definition py_int (s : string) : result Z :=
  match int_of_str s with
  | Some n => Ok n
  | None => Raise (ValueError "invalid literal for int() with base 10")
  end.

(** *** plot_single_attack *)

(** Lines 34-36: one [(i, int(col))] per flip record of the column. *)
Fixpoint flips_loop (i : nat) (col : string) (col_errors : list flip)
         (acc : list nat * list Z) : result (list nat * list Z) :=
  match col_errors with
  | [] => Ok acc
  | _ :: rest =>
      rbind (py_int col) (fun c =>
      flips_loop i col rest (fst acc ++ [i], snd acc ++ [c]))
  end.

(** Line 33: [for col, col_errors in row_errors["col"].items()] *)
Fixpoint cols_loop (i : nat) (cols : list (string * list flip))
         (acc : list nat * list Z) : result (list nat * list Z) :=
  match cols with
  | [] => Ok acc
  | (col, col_errors) :: rest =>
      rbind (flips_loop i col col_errors acc) (cols_loop i rest)
  end.

(** Lines 31-32: [for i, (row, row_errors) in enumerate(...)].  The
    accumulator is [(row_labels, (row_vals, col_vals))]. *)
Fixpoint rows_loop (rows : list (nat * (string * RowErrors)))
         (acc : list string * (list nat * list Z))
  : result (list string * (list nat * list Z)) :=
  match rows with
  | [] => Ok acc
  | (i, (row, row_errors)) :: rest =>
      let row_labels := fst acc ++ [row] in
      rbind (getitem "col" (re_col row_errors)) (fun cols =>
      rbind (cols_loop i cols (snd acc)) (fun vals =>
      rows_loop rest (row_labels, vals)))
  end.

(** Lines 25-36: the flattening of one [errors_in_rows]. *)
Definition flatten (e : ErrorsInRows)
  : result (list string * (list nat * list Z)) :=
  rows_loop (enumerate e) ([], ([], [])).

(** Line 59.  [max_errors] is [int(h.max())], the largest cell of the
    histogram that [hist2d] returns. *)
Definition single_ticks_step (max_errors : Z) : Z :=
  Z.max 1 (max_errors / 20).

(** [data["errors_in_rows"]] on a value of an attack set. *)
Definition get_errors_in_rows (data : set_entry) : result ErrorsInRows :=
  match data with
  | ReadCount _ => Raise TypeError
  | Attack r => getitem "errors_in_rows" (errors_in_rows r)
  end.

Definition plot_single_attack (data : set_entry) (_rows cols col_step : Z)
           (title : string) : M unit :=
  e <- lift (get_errors_in_rows data) ;;
  let affected_rows_count := List.length e in
  flat <- lift (flatten e) ;;
  let row_labels := fst flat in
  let row_vals := fst (snd flat) in
  let col_vals := snd (snd flat) in
  (* line 38: range(0, cols + 1, col_step), then min(row_vals) *)
  if col_step =? 0 then raise (ValueError "range() arg 3 must not be zero")
  else
    match row_vals with
    | [] => raise (ValueError "min() arg is an empty sequence")
    | _ :: _ =>
        emit (SinglePlot
                (mkSinglePlot title (seq 0 affected_rows_count) row_labels
                              row_vals col_vals cols col_step))
    end.

(** *** plot_aggressors_vs_victims *)

Record hist_lists : Type := mkHistLists {
  aggressors : list Z;
  victims : list Z;
  bitflips : list Z;
  avb_packed : list (Z * Z * Z)
}.

(** Lines 77-87: [for v in victim] *)
Fixpoint victim_loop (aggressor : Z) (victim : list (string * RowErrors))
         (acc : hist_lists) : result hist_lists :=
  match victim with
  | [] => Ok acc
  | v :: rest =>
      rbind (getitem "bitflips" (re_bitflips (snd v))) (fun bitflip_amount =>
      rbind (getitem "row" (re_row (snd v))) (fun row_number =>
      victim_loop aggressor rest
        (mkHistLists (aggressors acc ++ [aggressor])
                     (victims acc ++ [row_number])
                     (bitflips acc ++ [bitflip_amount])
                     (avb_packed acc
                        ++ [(aggressor, row_number, bitflip_amount)]))))
  end.

(** Line 75: [for aggressor, victim in data.items()] *)
Fixpoint data_loop (data : table) (acc : hist_lists) : result hist_lists :=
  match data with
  | [] => Ok acc
  | (aggressor, victim) :: rest =>
      rbind (victim_loop aggressor victim acc) (data_loop rest)
  end.

(** Line 126, on the [int(h.max())] of the aggregate histogram. *)
Definition aggregate_ticks_step (max_errors : Z) : Z :=
  Z.max 1 (max_errors / 20).

Definition plot_aggressors_vs_victims (data : table) (annotate : string)
  : M unit :=
  l <- lift (data_loop data (mkHistLists [] [] [] [])) ;;
  match victims l with
  | [] => raise (ValueError "min() arg is an empty sequence")
  | _ :: _ =>
      let min_victim := py_min (victims l) in
      let max_victim := py_max (victims l) in
      let min_aggressor := py_min (aggressors l) in
      let max_aggressor := py_max (aggressors l) in
      let bins := (max_victim - min_victim + 1,
                   max_aggressor - min_aggressor + 1) in
      let texts := if String.eqb annotate "bitflips" then avb_packed l else [] in
      emit (AggregatePlot
              (mkAggregatePlot
                 ("Aggressors (" ++ str min_aggressor ++ ", "
                    ++ str max_aggressor ++ ") vs victims ("
                    ++ str min_victim ++ ", " ++ str max_victim ++ ")")%string
                 (victims l) (aggressors l) (bitflips l) bins texts))
  end.

(** *** The log walker (the [__main__] block) *)

Variable args : Args.
Variables COLS ROWS : Z.

Definition set_hammered_rows (hr : Z * Z) : M unit :=
  fun s => (Ok tt,
            mkState (Some hr) (title s) (aggressors_vs_victims s) (trace s)).

Definition set_title (t : string) : M unit :=
  fun s => (Ok tt,
            mkState (hammered_rows s) (Some t) (aggressors_vs_victims s)
                    (trace s)).

Definition set_table (t : table) : M unit :=
  fun s => (Ok tt, mkState (hammered_rows s) (title s) t (trace s)).

(** Reading a module-level name that may still be unbound. *)
Definition read_hammered_rows : M (Z * Z) :=
  fun s => match hammered_rows s with
           | Some hr => (Ok hr, s)
           | None => (Raise (NameError "hammered_rows"), s)
           end.

Definition read_title : M string :=
  fun s => match title s with
           | Some t => (Ok t, s)
           | None => (Raise (NameError "title"), s)
           end.

Definition read_table : M table :=
  fun s => (Ok (aggressors_vs_victims s), s).

(** [attack_results[key]] for the keys of an attack record. *)
Definition get_field {A : Type} (key : string)
           (field : AttackRecord -> option A) (attack_results : set_entry)
  : result A :=
  match attack_results with
  | ReadCount _ => Raise TypeError
  | Attack r => getitem key (field r)
  end.

(** [l[0]] and [l[-1]] *)
Definition first_item {A : Type} (l : list A) : result A :=
  match l with
  | [] => Raise IndexError
  | x :: _ => Ok x
  end.

Definition last_item {A : Type} (l : list A) : result A :=
  match rev l with
  | [] => Raise IndexError
  | x :: _ => Ok x
  end.

Definition sequential_msg : string :=
  "ERROR: Sequential attacks are not hammering a single row. Unable to compare aggressors against victims.".

Definition pair_msg : string :=
  "ERROR: Attacks are not hammering single rows. Unable to plot aggressors against their victims. Use `--row-pair-distance 0` to target single row at once.".

(** Lines 174-186: classification by the prefix of the attack's name. *)
Definition classify (attack : string) (attack_results : set_entry) : M unit :=
  if prefix "pair" attack then
    h1 <- lift (get_field "hammer_row_1" hammer_row_1 attack_results) ;;
    h2 <- lift (get_field "hammer_row_2" hammer_row_2 attack_results) ;;
    set_hammered_rows (h1, h2) ;;
    set_title ("Hammered rows: (" ++ str h1 ++ ", " ++ str h2 ++ ")")%string
  else if prefix "sequential" attack then
    rp <- lift (get_field "row_pairs" row_pairs attack_results) ;;
    first <- lift (first_item rp) ;;
    let start_row := snd first in
    last <- lift (last_item rp) ;;
    let end_row := snd last in
    set_title ("Sequential attack on rows from " ++ str start_row
                 ++ " to " ++ str end_row)%string ;;
    if aggressors_vs_victims_flag args then
      print sequential_msg ;; py_exit
    else ret tt
  else ret tt.

(** Lines 189-212 *)
Definition collect_or_plot (attack_results : set_entry) : M unit :=
  if aggressors_vs_victims_flag args then
    victim_rows <- lift (get_errors_in_rows attack_results) ;;
    hr <- read_hammered_rows ;;
    let hammered_row := fst hr in
    t <- read_table ;;
    set_table (dict_set Z.eqb hammered_row victim_rows t) ;;
    if negb (Z.eqb (fst hr) (snd hr)) then
      print pair_msg ;; py_exit
    else ret tt
  else
    (if plot_columns args =? 0 then raise ZeroDivisionError else ret tt) ;;
    t <- read_title ;;
    plot_single_attack attack_results ROWS COLS (COLS / plot_columns args) t.

(** Lines 173-212: the body of the inner loop. *)
Definition attack_body (item : string * set_entry) : M unit :=
  classify (fst item) (snd item) ;;
  collect_or_plot (snd item).

(** Lines 166-214: the body of the outer loop. *)
Definition attack_set_body (item : string * AttackSetResult) : M unit :=
  set_table [] ;;
  let attack_set_results :=
    if dict_has String.eqb "read_count" (snd item)
    then dict_pop String.eqb "read_count" (snd item)
    else snd item in
  for_each attack_body attack_set_results ;;
  if aggressors_vs_victims_flag args then
    t <- read_table ;;
    plot_aggressors_vs_victims t (annotate args)
  else ret tt.

Definition walk (log_data : AttackLog) : M unit :=
  for_each attack_set_body log_data.

(** A whole run, from the unbound names of a fresh interpreter. *)
Definition main (log_data : AttackLog) : result unit * state :=
  walk log_data init_state.

End Script.

(** ** Quantities the statements speak of *)

(** Flip records of one row: the lengths of its per-column lists, summed. *)
Definition row_flip_count (re : RowErrors) : nat :=
  match re_col re with
  | Some cols => list_sum (map (fun c => List.length (snd c)) cols)
  | None => 0%nat
  end.

(** Flip records of a whole [errors_in_rows]. *)
Definition total_flips (e : ErrorsInRows) : nat :=
  list_sum (map (fun r => row_flip_count (snd r)) e).

(** [a] comes before [b] in the sequence [l]. *)
Definition precedes {A : Type} (a b : A) (l : list A) : Prop :=
  exists l1 l2 l3, l = l1 ++ a :: l2 ++ b :: l3.

(** A pair record hammering the single row [R], with victims [e]. *)
Definition single_row_pair (name : string) (r : AttackRecord) (R : Z)
           (e : ErrorsInRows) : Prop :=
  prefix "pair" name = true /\
  hammer_row_1 r = Some R /\
  hammer_row_2 r = Some R /\
  errors_in_rows r = Some e.

(** The rows the flattening can read: [col] is present, and the label of
    every column that holds a flip is accepted by [int]. *)
Definition column_readable (int_of_str : string -> option Z)
           (c : string * list flip) : bool :=
  match snd c with
  | [] => true
  | _ :: _ => match int_of_str (fst c) with Some _ => true | None => false end
  end.

Definition row_readable (int_of_str : string -> option Z) (re : RowErrors)
  : bool :=
  match re_col re with
  | Some cols => forallb (column_readable int_of_str) cols
  | None => false
  end.

Definition readable (int_of_str : string -> option Z) (e : ErrorsInRows)
  : bool :=
  forallb (fun r => row_readable int_of_str (snd r)) e.

(** The dense indices written for a run of enumerated rows. *)
Definition dense_vals (rows : list (nat * (string * RowErrors))) : list nat :=
  flat_map (fun ir => repeat (fst ir) (row_flip_count (snd (snd ir)))) rows.

(** The keys of a dict are pairwise different. *)
Fixpoint unique_keys (keys : list string) : bool :=
  match keys with
  | [] => true
  | k :: rest => negb (existsb (String.eqb k) rest) && unique_keys rest
  end.

(** A computation that shows no aggregate plot, however it ends. *)
Definition quiet {A : Type} (m : M A) : Prop :=
  forall s, aggregate_renders (trace (snd (m s))) = aggregate_renders (trace s).

(** A computation that always ends in an exception. *)
Definition fails {A : Type} (m : M A) : Prop :=
  forall s, exists e, fst (m s) = Raise e.

(** ** Sample logs *)

Definition aggregate_args : Args := mkArgs 32 true "color".
Definition single_args : Args := mkArgs 32 false "color".

Definition pair_record (h1 h2 : Z) (e : ErrorsInRows) : AttackRecord :=
  mkAttackRecord (Some h1) (Some h2) None (Some e).

Definition sequential_record (rp : list (Z * Z)) (e : ErrorsInRows)
  : AttackRecord :=
  mkAttackRecord None None (Some rp) (Some e).

(** A record with no field but [errors_in_rows]. *)
Definition bare_record (e : ErrorsInRows) : AttackRecord :=
  mkAttackRecord None None None (Some e).

Definition row_101 : RowErrors :=
  mkRowErrors (Some 101) (Some [("5", [0]); ("6", [1; 2])]) (Some 3).
Definition row_7 : RowErrors :=
  mkRowErrors (Some 7) (Some [("40", [3]); ("41", [])]) (Some 1).
Definition row_201 : RowErrors :=
  mkRowErrors (Some 201) (Some [("5", [0; 1; 2])]) (Some 3).
Definition row_202 : RowErrors :=
  mkRowErrors (Some 202) (Some [("9", [4])]) (Some 1).
(** One flip record in the column lists, 7 in the [bitflips] field. *)
Definition row_301 : RowErrors :=
  mkRowErrors (Some 301) (Some [("5", [0])]) (Some 7).

Definition errors_101 : ErrorsInRows := [("101", row_101)].
Definition errors_101_7 : ErrorsInRows := [("101", row_101); ("7", row_7)].

(** Two pair records of one attack set hammering row 200. *)
Definition set_same_aggressor : AttackSetResult :=
  [("read_count", ReadCount 1000);
   ("pair_200_200", Attack (pair_record 200 200 [("201", row_201)]));
   ("pair_200_200_again", Attack (pair_record 200 200 [("202", row_202)]))].
Definition log_same_aggressor : AttackLog := [("1000", set_same_aggressor)].

(** Two attack sets, one qualifying pair record each. *)
Definition log_two_sets : AttackLog :=
  [("1000", [("read_count", ReadCount 1000);
             ("pair_200_200", Attack (pair_record 200 200 [("201", row_201)]))]);
   ("2000", [("read_count", ReadCount 2000);
             ("pair_200_200", Attack (pair_record 200 200 [("202", row_202)]))])].

(** A qualifying attack set followed by one with a sequential record. *)
Definition set_qualifying : AttackSetResult :=
  [("pair_50_50", Attack (pair_record 50 50 errors_101))].
Definition set_sequential : AttackSetResult :=
  [("sequential_0_2", Attack (sequential_record [(0, 1); (1, 2)] errors_101))].
Definition log_pair_then_sequential : AttackLog :=
  [("1000", set_qualifying); ("2000", set_sequential)].
Definition log_sequential : AttackLog := [("1000", set_sequential)].

Definition log_skewed : AttackLog :=
  [("1000", [("pair_300_300",
              Attack (pair_record 300 300 [("301", row_301)]))])].

Definition log_unequal_pair : AttackLog :=
  [("1000", [("pair_50_60", Attack (pair_record 50 60 errors_101))])].

(** A record whose name starts with neither "pair" nor "sequential",
    after a pair record and alone. *)
Definition log_unknown_after_pair : AttackLog :=
  [("1000", [("pair_1_1", Attack (pair_record 1 1 errors_101));
             ("hammer_9", Attack (bare_record [("202", row_202)]))])].
Definition log_unknown_alone : AttackLog :=
  [("1000", [("hammer_9", Attack (bare_record [("202", row_202)]))])].

From Stdlib Require Import Sorted.

(** ** Ranges and ticks *)

(** [list(range(start, stop, step))] *)
Definition py_range (start stop step : Z) : result (list Z) :=
  if step =? 0 then Raise (ValueError "range() arg 3 must not be zero")
  else
    let n := if 0 <? step
             then (stop - start + step - 1) / step
             else (start - stop - step - 1) / (- step) in
    Ok (map (fun k => start + Z.of_nat k * step) (seq 0 (Z.to_nat n))).

(** Lines 38 and 51: the column bin edges, which are also the x ticks. *)
Definition column_edges (cols col_step : Z) : result (list Z) :=
  py_range 0 (cols + 1) col_step.

(** Line 60: the ticks of the colour bar of a single-attack plot. *)
Definition single_colorbar_ticks (max_errors : Z) : result (list Z) :=
  py_range 0 (max_errors + 1) (single_ticks_step max_errors).

(** Line 130: the ticks of the colour bar of the aggregate plot. *)
Definition aggregate_colorbar_ticks (max_errors : Z) : result (list Z) :=
  py_range 0 (max_errors + 1) (aggregate_ticks_step max_errors).

(** ** The points handed to the histograms *)

(** The columns of a row, none when [col] is absent. *)
Definition cols_of (re : RowErrors) : list (string * list flip) :=
  match re_col re with
  | Some cols => cols
  | None => []
  end.

(** One point [(i, int(col))] per flip record of row [i]. *)
Definition row_points (int_of_str : string -> option Z) (i : nat)
           (re : RowErrors) : list (nat * option Z) :=
  flat_map (fun c => repeat (i, int_of_str (fst c)) (List.length (snd c)))
           (cols_of re).

(** The points of a whole [errors_in_rows], rows in insertion order. *)
Definition flip_points (int_of_str : string -> option Z) (e : ErrorsInRows)
  : list (nat * option Z) :=
  flat_map (fun ir => row_points int_of_str (fst ir) (snd (snd ir)))
           (enumerate e).

(** The two parallel sequences read as points. *)
Definition zipped (row_vals : list nat) (col_vals : list Z)
  : list (nat * option Z) :=
  map (fun p => (fst p, Some (snd p))) (combine row_vals col_vals).

(** ** The entries of the aggregate table *)

(** The victim entries of a table, aggressor after aggressor. *)
Definition table_entries (data : table) : list (string * RowErrors) :=
  flat_map snd data.


(** The four lists of the aggregate renderer grow together. *)
Definition parallel (l : hist_lists) : Prop :=
  List.length (aggressors l) = List.length (victims l) /\
  List.length (victims l) = List.length (bitflips l) /\
  avb_packed l = combine (combine (aggressors l) (victims l)) (bitflips l).


(** ** Records and plots of a run *)

(** The records of an attack set: its entries without [read_count]. *)
Definition records_of (aset : AttackSetResult) : AttackSetResult :=
  dict_pop String.eqb "read_count" aset.

(** The records of a whole log. *)
Definition record_count (log_data : AttackLog) : nat :=
  list_sum (map (fun item => List.length (records_of (snd item))) log_data).

(** The log with every [read_count] entry taken out. *)
Definition without_read_count (log_data : AttackLog) : AttackLog :=
  map (fun item => (fst item, records_of (snd item))) log_data.

(** A computation that never ends in [SystemExit]. *)
Definition no_exit {A : Type} (m : M A) : Prop :=
  forall s c, fst (m s) <> Raise (SystemExit c).

Definition pure_no_exit {A : Type} (r : result A) : Prop :=
  forall c, r <> Raise (SystemExit c).

(** A computation that shows single-attack plots only: at most [n] of
    them, and exactly [n] when it returns. *)
Definition plots_singles {A : Type} (n : nat) (m : M A) : Prop :=
  forall s,
  exists ps,
    trace (snd (m s)) = trace s ++ map SinglePlot ps /\
    (List.length ps <= n)%nat /\
    (forall a, fst (m s) = Ok a -> List.length ps = n).

(** ** What a record stores in aggregate mode *)

(** The key and the victim entries a record puts in the table when it is
    a pair record with all its keys and two equal hammered rows. *)
Definition stored_by (item : string * set_entry) : option (Z * ErrorsInRows) :=
  match snd item with
  | Attack r =>
      match hammer_row_1 r, hammer_row_2 r, errors_in_rows r with
      | Some h1, Some h2, Some e =>
          if prefix "pair" (fst item) && Z.eqb h1 h2 then Some (h1, e) else None
      | _, _, _ => None
      end
  | ReadCount _ => None
  end.

Definition qualifying (item : string * set_entry) : bool :=
  match stored_by item with
  | Some _ => true
  | None => false
  end.

(** What the records of [l] store, in order. *)
Definition stored_list (l : AttackSetResult) : table :=
  flat_map (fun item => match stored_by item with
                        | Some x => [x]
                        | None => []
                        end) l.

(** The victim entries of the last record of [l] that hammers [R]. *)
Fixpoint last_stored (R : Z) (l : AttackSetResult) : option ErrorsInRows :=
  match l with
  | [] => None
  | item :: rest =>
      match last_stored R rest with
      | Some e => Some e
      | None =>
          match stored_by item with
          | Some (R', e) => if Z.eqb R R' then Some e else None
          | None => None
          end
      end
  end.


(** ** More sample data *)

(** More plot columns than the 1024 columns of the sample geometry. *)
Definition wide_args : Args := mkArgs 2048 false "color".

(** A row whose only column holds no flip record. *)
Definition row_quiet : RowErrors :=
  mkRowErrors (Some 7) (Some [("41", [])]) (Some 0).


(** A pair record that found no flip at all. *)
Definition set_no_flips : AttackSetResult :=
  [("read_count", ReadCount 1000);
   ("pair_50_50", Attack (pair_record 50 50 []))].

Definition table_200 : table := [(200, [("201", row_201); ("202", row_202)])].

(** ** Legend ticks *)

Lemma ticks_floor (M : Z) :
  20 * (M / 20) <= M < 20 * (M / 20) + 20.
Proof.
  pose proof (Z.mul_div_le M 20 ltac:(lia)).
  pose proof (Z.mul_succ_div_gt M 20 ltac:(lia)).
  lia.
Qed.

(** C8. For a maximum histogram value [M >= 0], the legend tick step of
    both renderers is [max(1, q)], where [q] is the floor of [M / 20]
    (the only integer with [20 q <= M < 20 q + 20]); it is at least 1, and
    it is 1 when [M < 20]. *)
Theorem ticks_step_floor_lower_bound (M : Z) (HM : 0 <= M) :
  exists q : Z,
    20 * q <= M < 20 * q + 20 /\
    single_ticks_step M = Z.max 1 q /\
    aggregate_ticks_step M = Z.max 1 q /\
    1 <= single_ticks_step M /\
    1 <= aggregate_ticks_step M /\
    (M < 20 -> single_ticks_step M = 1 /\ aggregate_ticks_step M = 1).
Proof.
  exists (M / 20).
  pose proof (ticks_floor M) as Hf.
  unfold single_ticks_step, aggregate_ticks_step.
  assert (Hsmall : M < 20 -> M / 20 = 0) by (intros; apply Z.div_small; lia).
  repeat split; lia.
Qed.

(** The tick step at a maximum of 7, below 20. *)
Lemma ticks_step_floor_lower_bound_witness :
  exists q : Z,
    20 * q <= 7 < 20 * q + 20 /\
    single_ticks_step 7 = Z.max 1 q /\
    aggregate_ticks_step 7 = Z.max 1 q /\
    1 <= single_ticks_step 7 /\
    1 <= aggregate_ticks_step 7 /\
    (7 < 20 -> single_ticks_step 7 = 1 /\ aggregate_ticks_step 7 = 1).
Proof. apply (ticks_step_floor_lower_bound 7); lia. Defined.

(** ** Flattening *)

Section FlattenFacts.

Variable int_of_str : string -> option Z.

Lemma flips_loop_spec i col ce acc out :
  flips_loop int_of_str i col ce acc = Ok out ->
  fst out = fst acc ++ repeat i (List.length ce) /\
  List.length (snd out) = (List.length (snd acc) + List.length ce)%nat.
Proof.
  revert acc. induction ce as [|f ce IH]; intros acc H; simpl in H.
  - inversion H; subst. simpl. rewrite app_nil_r. split; [reflexivity|lia].
  - unfold py_int in H. destruct (int_of_str col) as [c|]; simpl in H;
      [|discriminate].
    apply IH in H. simpl in H. destruct H as [H1 H2]. split.
    + rewrite H1, <- app_assoc. reflexivity.
    + rewrite H2, length_app. simpl. lia.
Qed.

Lemma cols_loop_spec i cols acc out :
  cols_loop int_of_str i cols acc = Ok out ->
  fst out
  = fst acc ++ repeat i (list_sum (map (fun c => List.length (snd c)) cols)) /\
  List.length (snd out)
  = (List.length (snd acc)
     + list_sum (map (fun c => List.length (snd c)) cols))%nat.
Proof.
  revert acc. induction cols as [|[col ce] cols IH]; intros acc H; simpl in H.
  - inversion H; subst. simpl. rewrite app_nil_r. split; [reflexivity|lia].
  - destruct (flips_loop int_of_str i col ce acc) as [mid|] eqn:E;
      simpl in H; [|discriminate].
    apply flips_loop_spec in E. apply IH in H.
    destruct E as [E1 E2], H as [H1 H2]. simpl. split.
    + rewrite H1, E1, repeat_app, app_assoc. reflexivity.
    + rewrite H2, E2. lia.
Qed.

Lemma dense_vals_length rows :
  List.length (dense_vals rows)
  = list_sum (map (fun ir => row_flip_count (snd (snd ir))) rows).
Proof.
  unfold dense_vals. induction rows as [|ir l IH]; simpl; [reflexivity|].
  rewrite length_app, repeat_length, IH. reflexivity.
Qed.

Lemma rows_loop_spec rows acc out :
  rows_loop int_of_str rows acc = Ok out ->
  fst out = fst acc ++ map (fun ir => fst (snd ir)) rows /\
  fst (snd out) = fst (snd acc) ++ dense_vals rows /\
  List.length (snd (snd out))
  = (List.length (snd (snd acc))
     + list_sum (map (fun ir => row_flip_count (snd (snd ir))) rows))%nat.
Proof.
  revert acc. induction rows as [|[i [row re]] rows IH]; intros acc H;
    simpl in H.
  - inversion H; subst. simpl. rewrite !app_nil_r.
    repeat split; try reflexivity; lia.
  - unfold getitem in H. unfold dense_vals, row_flip_count. simpl.
    destruct (re_col re) as [cols|]; simpl in H; [|discriminate].
    destruct (cols_loop int_of_str i cols (snd acc)) as [vals|] eqn:E;
      simpl in H; [|discriminate].
    apply cols_loop_spec in E. apply IH in H. simpl in H.
    destruct E as [E1 E2], H as (H1 & H2 & H3). repeat split.
    + rewrite H1, <- app_assoc. reflexivity.
    + rewrite H2, E1, <- app_assoc. reflexivity.
    + unfold row_flip_count in H3. rewrite H3, E2. lia.
Qed.

Lemma enumerate_from_values {A : Type} (l : list A) (a : nat) :
  map snd (combine (seq a (List.length l)) l) = l.
Proof.
  revert a. induction l as [|x l IH]; intros a; simpl; [reflexivity|].
  rewrite IH. reflexivity.
Qed.

Lemma enumerate_values {A : Type} (l : list A) :
  map snd (enumerate l) = l.
Proof. apply enumerate_from_values. Qed.

Lemma In_enumerate_from {A : Type} (l : list A) (a i : nat) (x : A) :
  In (i, x) (combine (seq a (List.length l)) l) <->
  (a <= i)%nat /\ nth_error l (i - a) = Some x.
Proof.
  revert a. induction l as [|y l IH]; intros a; simpl.
  - split; [tauto|]. intros [_ H]. destruct (i - a)%nat; discriminate.
  - rewrite IH. split.
    + intros [H | [Hle H]].
      * inversion H; subst. rewrite Nat.sub_diag. split; [lia|reflexivity].
      * split; [lia|]. replace (i - a)%nat with (S (i - S a)) by lia.
        exact H.
    + intros [Hle H]. destruct (Nat.eq_dec a i) as [->|Hne].
      * left. rewrite Nat.sub_diag in H. simpl in H. congruence.
      * right. split; [lia|].
        replace (i - a)%nat with (S (i - S a)) in H by lia. exact H.
Qed.

(** [enumerate] pairs each item with its position. *)
Lemma In_enumerate {A : Type} (l : list A) (i : nat) (x : A) :
  In (i, x) (enumerate l) <-> nth_error l i = Some x.
Proof.
  unfold enumerate. rewrite In_enumerate_from, Nat.sub_0_r.
  split; [tauto|]. intros H. split; [lia|exact H].
Qed.

Lemma flatten_spec e out :
  flatten int_of_str e = Ok out ->
  fst out = map fst e /\
  fst (snd out) = dense_vals (enumerate e) /\
  List.length (fst (snd out)) = total_flips e /\
  List.length (snd (snd out)) = total_flips e.
Proof.
  unfold flatten. intros H. apply rows_loop_spec in H. simpl in H.
  destruct H as (H1 & H2 & H3).
  assert (Hsum : list_sum
                   (map (fun ir : nat * (string * RowErrors) =>
                           row_flip_count (snd (snd ir))) (enumerate e))
                 = total_flips e).
  { unfold total_flips. rewrite <- (enumerate_values e) at 2.
    rewrite map_map. reflexivity. }
  repeat split.
  - rewrite H1. rewrite <- (enumerate_values e) at 2. rewrite map_map.
    reflexivity.
  - exact H2.
  - rewrite H2, dense_vals_length. exact Hsum.
  - rewrite H3, Hsum. reflexivity.
Qed.

Lemma flips_loop_total i col ce acc :
  column_readable int_of_str (col, ce) = true ->
  exists out, flips_loop int_of_str i col ce acc = Ok out.
Proof.
  unfold column_readable. simpl. revert acc.
  induction ce as [|f ce IH]; intros acc H; simpl.
  - eauto.
  - unfold py_int. destruct (int_of_str col) as [c|] eqn:E; [|discriminate].
    simpl. apply IH. destruct ce; reflexivity.
Qed.

Lemma cols_loop_total i cols acc :
  forallb (column_readable int_of_str) cols = true ->
  exists out, cols_loop int_of_str i cols acc = Ok out.
Proof.
  revert acc. induction cols as [|[col ce] cols IH]; intros acc H; simpl.
  - eauto.
  - simpl in H. apply andb_true_iff in H. destruct H as [Hc Hr].
    destruct (flips_loop_total i col ce acc Hc) as [mid ->]. simpl.
    apply IH. exact Hr.
Qed.

Lemma rows_loop_total rows acc :
  forallb (fun ir => row_readable int_of_str (snd (snd ir))) rows = true ->
  exists out, rows_loop int_of_str rows acc = Ok out.
Proof.
  revert acc. induction rows as [|[i [row re]] rows IH]; intros acc H; simpl.
  - eauto.
  - simpl in H. apply andb_true_iff in H. destruct H as [Hc Hr].
    unfold row_readable in Hc. destruct (re_col re) as [cols|];
      [|discriminate]. simpl.
    destruct (cols_loop_total i cols (snd acc) Hc) as [vals ->]. simpl.
    apply IH. exact Hr.
Qed.

Lemma forallb_through_map {A B : Type} (f : B -> bool) (g : A -> B) l :
  forallb f (map g l) = forallb (fun x => f (g x)) l.
Proof.
  induction l as [|x l IH]; simpl; [reflexivity|]. rewrite IH. reflexivity.
Qed.

Lemma flatten_total e :
  readable int_of_str e = true -> exists out, flatten int_of_str e = Ok out.
Proof.
  intros H. apply rows_loop_total. unfold readable in H.
  rewrite <- (enumerate_values e) in H at 1.
  rewrite forallb_through_map in H. exact H.
Qed.

End FlattenFacts.

Section FlattenClaims.

Variable int_of_str : string -> option Z.

(** C4. On every [errors_in_rows] the flattening can read, it returns,
    and each of its two parallel sequences (dense row indices, column
    numbers) has as many entries as there are flip records in all rows
    and columns of the input. *)
Theorem flatten_length (e : ErrorsInRows) :
  readable int_of_str e = true ->
  exists row_labels row_vals col_vals,
    flatten int_of_str e = Ok (row_labels, (row_vals, col_vals)) /\
    List.length row_vals = total_flips e /\
    List.length col_vals = total_flips e.
Proof.
  intros Hr. destruct (flatten_total int_of_str e Hr) as [[ls [rv cv]] Hf].
  exists ls, rv, cv. apply flatten_spec in Hf as Hs. simpl in Hs.
  destruct Hs as (_ & _ & Hrv & Hcv). auto.
Qed.

Lemma unique_keys_NoDup (keys : list string) :
  unique_keys keys = true -> NoDup keys.
Proof.
  induction keys as [|k rest IH]; simpl; intros H; constructor.
  - apply andb_true_iff in H. destruct H as [H _].
    intros Hin. apply negb_true_iff in H.
    assert (existsb (String.eqb k) rest = true) as Hex; [|congruence].
    apply existsb_exists. exists k. split; [exact Hin|apply String.eqb_refl].
  - apply IH. apply andb_true_iff in H. tauto.
Qed.

Lemma nth_error_unique {A : Type} (l : list A) (i j : nat) (x : A) :
  NoDup l -> nth_error l i = Some x -> nth_error l j = Some x -> i = j.
Proof.
  intros Hnd Hi Hj. rewrite NoDup_nth_error in Hnd. apply Hnd.
  - apply nth_error_Some. congruence.
  - congruence.
Qed.

Lemma nth_error_middle {A : Type} (l1 l2 : list A) (x : A) :
  nth_error (l1 ++ x :: l2) (List.length l1) = Some x.
Proof.
  rewrite nth_error_app2 by lia. rewrite Nat.sub_diag. reflexivity.
Qed.

(** C5. The loop gives the row at position [i] of the insertion order the
    dense index [i]: the labels come out in insertion order, the indices
    written to [row_vals] are those positions, a label has one index and
    an index one label, and a label that comes earlier has the strictly
    smaller index. *)
Theorem dense_index_order_injective (e : ErrorsInRows)
        (row_labels : list string) (row_vals : list nat) (col_vals : list Z) :
  unique_keys (map fst e) = true ->
  flatten int_of_str e = Ok (row_labels, (row_vals, col_vals)) ->
  row_labels = map fst e /\
  row_vals = dense_vals (enumerate e) /\
  (forall i row row_errors,
      In (i, (row, row_errors)) (enumerate e) ->
      nth_error row_labels i = Some row) /\
  (forall i j li lj,
      nth_error row_labels i = Some li ->
      nth_error row_labels j = Some lj ->
      (li = lj <-> i = j) /\
      (precedes li lj row_labels -> (i < j)%nat)).
Proof.
  intros Hnd Hf. apply unique_keys_NoDup in Hnd.
  apply flatten_spec in Hf. simpl in Hf.
  destruct Hf as (Hl & Hv & _ & _). subst row_labels.
  repeat split; auto.
  - intros i row re Hin. apply In_enumerate in Hin.
    rewrite nth_error_map, Hin. reflexivity.
  - intros ->. eapply nth_error_unique; eauto.
  - intros ->. congruence.
  - intros (l1 & l2 & l3 & Hsplit).
    assert (Hi : i = List.length l1).
    { eapply nth_error_unique; [exact Hnd | exact H |].
      rewrite Hsplit. apply nth_error_middle. }
    assert (Hj : j = List.length (l1 ++ li :: l2)).
    { eapply nth_error_unique; [exact Hnd | exact H0 |].
      rewrite Hsplit.
      replace (l1 ++ li :: l2 ++ lj :: l3)
        with ((l1 ++ li :: l2) ++ lj :: l3)
        by (rewrite <- app_assoc; reflexivity).
      apply nth_error_middle. }
    rewrite Hi, Hj, length_app. simpl. lia.
Qed.

End FlattenClaims.

(** ** The walker *)

Lemma quiet_ret {A : Type} (a : A) : quiet (ret a).
Proof. intros s. reflexivity. Qed.

Lemma quiet_raise {A : Type} (e : exn) : quiet (@raise A e).
Proof. intros s. reflexivity. Qed.

Lemma quiet_lift {A : Type} (r : result A) : quiet (lift r).
Proof. intros s. reflexivity. Qed.

Lemma quiet_bind {A B : Type} (m : M A) (f : A -> M B) :
  quiet m -> (forall a, quiet (f a)) -> quiet (bind m f).
Proof.
  intros Hm Hf s. unfold bind. specialize (Hm s).
  destruct (m s) as [[a|e] s1]; simpl in *.
  - rewrite Hf. exact Hm.
  - exact Hm.
Qed.

Lemma quiet_emit (e : event) : is_aggregate e = false -> quiet (emit e).
Proof.
  intros He s. unfold emit, aggregate_renders. simpl.
  rewrite filter_app. simpl. rewrite He. apply app_nil_r.
Qed.

Lemma quiet_print (msg : string) : quiet (print msg).
Proof. apply quiet_emit. reflexivity. Qed.

Lemma quiet_py_exit {A : Type} : quiet (@py_exit A).
Proof. apply quiet_raise. Qed.

Lemma quiet_set_hammered_rows hr : quiet (set_hammered_rows hr).
Proof. intros s. reflexivity. Qed.

Lemma quiet_set_title t : quiet (set_title t).
Proof. intros s. reflexivity. Qed.

Lemma quiet_set_table t : quiet (set_table t).
Proof. intros s. reflexivity. Qed.

Lemma quiet_read_hammered_rows : quiet read_hammered_rows.
Proof. intros s. unfold read_hammered_rows. destruct (hammered_rows s); reflexivity. Qed.

Lemma quiet_read_title : quiet read_title.
Proof. intros s. unfold read_title. destruct (title s); reflexivity. Qed.

Lemma quiet_read_table : quiet read_table.
Proof. intros s. reflexivity. Qed.

Lemma quiet_for_each {A : Type} (body : A -> M unit) (l : list A) :
  (forall x, quiet (body x)) -> quiet (for_each body l).
Proof.
  intros Hb. induction l as [|x l IH]; simpl.
  - apply quiet_ret.
  - apply quiet_bind; auto.
Qed.

Create HintDb quiet.
#[local] Hint Resolve quiet_ret quiet_raise quiet_lift quiet_print
  quiet_py_exit quiet_set_hammered_rows quiet_set_title quiet_set_table
  quiet_read_hammered_rows quiet_read_title quiet_read_table : quiet.

Ltac quiet_step :=
  match goal with
  | |- quiet (bind _ _) => apply quiet_bind; [|intros ?]
  | |- quiet (if ?b then _ else _) => destruct b
  | |- quiet (match ?x with _ => _ end) => destruct x
  | |- quiet _ => solve [auto with quiet]
  end.

Lemma fails_bind_left {A B : Type} (m : M A) (f : A -> M B) :
  fails m -> fails (bind m f).
Proof.
  intros Hm s. unfold bind. destruct (Hm s) as [e He].
  destruct (m s) as [[a|e'] s1]; simpl in *; [discriminate|eauto].
Qed.

Lemma fails_bind_right {A B : Type} (m : M A) (f : A -> M B) :
  (forall a, fails (f a)) -> fails (bind m f).
Proof.
  intros Hf s. unfold bind. destruct (m s) as [[a|e'] s1]; simpl.
  - apply Hf.
  - eauto.
Qed.

Lemma fails_raise {A : Type} (e : exn) : fails (@raise A e).
Proof. intros s. exists e. reflexivity. Qed.

Lemma for_each_app {A : Type} (body : A -> M unit) (l1 l2 : list A) (s : state) :
  for_each body (l1 ++ l2) s
  = match for_each body l1 s with
    | (Ok _, s1) => for_each body l2 s1
    | (Raise e, s1) => (Raise e, s1)
    end.
Proof.
  revert s. induction l1 as [|x l1 IH]; intros s; simpl.
  - reflexivity.
  - unfold bind. destruct (body x s) as [[[]|e] s1]; [apply IH|reflexivity].
Qed.

Lemma fails_for_each {A : Type} (body : A -> M unit) (l : list A) (x : A) :
  In x l -> fails (body x) -> fails (for_each body l).
Proof.
  intros Hin Hx. induction l as [|y l IH]; simpl; [contradiction|].
  destruct Hin as [->|Hin].
  - apply fails_bind_left. exact Hx.
  - apply fails_bind_right. intros _. apply IH. exact Hin.
Qed.

(** A name that starts with "sequential" does not start with "pair",
    and is not "read_count". *)
Lemma sequential_not_pair (attack : string) :
  prefix "sequential" attack = true -> prefix "pair" attack = false.
Proof.
  destruct attack as [|c rest]; cbn [prefix]; [discriminate|].
  destruct (ascii_dec "s"%char c) as [<-|]; [|discriminate].
  intros _. vm_compute. reflexivity.
Qed.

Lemma sequential_not_read_count (attack : string) :
  prefix "sequential" attack = true -> String.eqb "read_count" attack = false.
Proof.
  intros H. destruct (String.eqb_spec "read_count" attack) as [<-|];
    [vm_compute in H; discriminate|reflexivity].
Qed.

Lemma dict_get_set_same {V : Type} (k : Z) (v : V) (d : list (Z * V)) :
  dict_get Z.eqb k (dict_set Z.eqb k v d) = Some v.
Proof.
  induction d as [|[k' v'] d IH]; simpl.
  - rewrite Z.eqb_refl. reflexivity.
  - destruct (Z.eqb k k') eqn:E; simpl; rewrite E; [reflexivity|exact IH].
Qed.

Lemma dict_get_set_other {V : Type} (k k0 : Z) (v : V) (d : list (Z * V)) :
  k0 <> k -> dict_get Z.eqb k0 (dict_set Z.eqb k v d) = dict_get Z.eqb k0 d.
Proof.
  intros Hne. induction d as [|[k' v'] d IH]; simpl.
  - destruct (Z.eqb_spec k0 k); [contradiction|reflexivity].
  - destruct (Z.eqb_spec k k') as [->|]; simpl.
    + destruct (Z.eqb_spec k0 k'); [contradiction|reflexivity].
    + rewrite IH. reflexivity.
Qed.

Lemma In_dict_pop {V : Type} (k a : string) (v : V) (d : list (string * V)) :
  String.eqb k a = false -> In (a, v) d -> In (a, v) (dict_pop String.eqb k d).
Proof.
  intros Hne Hin. unfold dict_pop. apply filter_In. split; [exact Hin|].
  simpl. rewrite Hne. reflexivity.
Qed.

Section WalkerFacts.

Variable int_of_str : string -> option Z.
Variable args : Args.
Variables COLS ROWS : Z.

Lemma quiet_classify attack attack_results :
  quiet (classify args attack attack_results).
Proof. unfold classify. repeat quiet_step. Qed.

Lemma quiet_plot_single_attack data rows cols col_step title :
  quiet (plot_single_attack int_of_str data rows cols col_step title).
Proof.
  unfold plot_single_attack. repeat quiet_step.
  apply quiet_emit. reflexivity.
Qed.

Lemma quiet_collect_or_plot attack_results :
  quiet (collect_or_plot int_of_str args COLS ROWS attack_results).
Proof.
  unfold collect_or_plot. repeat quiet_step.
  apply quiet_plot_single_attack.
Qed.

(** No record, of any kind and in either mode, shows an aggregate plot. *)
Lemma quiet_attack_body item :
  quiet (attack_body int_of_str args COLS ROWS item).
Proof.
  unfold attack_body. apply quiet_bind; [apply quiet_classify|].
  intros _. apply quiet_collect_or_plot.
Qed.

(** The aggregate renderer shows one plot when it returns and none when
    it raises. *)
Lemma plot_aggressors_vs_victims_renders data annot s :
  match plot_aggressors_vs_victims data annot s with
  | (Ok _, s') =>
      exists p, aggregate_renders (trace s')
                = aggregate_renders (trace s) ++ [AggregatePlot p]
  | (Raise _, s') => aggregate_renders (trace s') = aggregate_renders (trace s)
  end.
Proof.
  unfold plot_aggressors_vs_victims, bind, lift.
  destruct (data_loop data (mkHistLists [] [] [] [])) as [l|e];
    [|reflexivity].
  destruct (victims l) as [|v vs]; [reflexivity|].
  unfold emit, aggregate_renders. simpl. rewrite filter_app. simpl. eauto.
Qed.

End WalkerFacts.

Section WalkerClaims.

Variable int_of_str : string -> option Z.
Variable args : Args.
Variables COLS ROWS : Z.

Hypothesis aggregate_mode : aggressors_vs_victims_flag args = true.

(** What one pair record does in aggregate mode: the names are bound, the
    table is written under [hammer_row_1], and only then are the two
    hammered rows compared. *)
Lemma attack_body_pair name r h1 h2 e s :
  prefix "pair" name = true ->
  hammer_row_1 r = Some h1 ->
  hammer_row_2 r = Some h2 ->
  errors_in_rows r = Some e ->
  attack_body int_of_str args COLS ROWS (name, Attack r) s
  = (if Z.eqb h1 h2 then Ok tt else Raise (SystemExit None),
     mkState (Some (h1, h2))
             (Some ("Hammered rows: (" ++ str h1 ++ ", " ++ str h2 ++ ")")%string)
             (dict_set Z.eqb h1 e (aggressors_vs_victims s))
             (if Z.eqb h1 h2 then trace s else trace s ++ [Stdout pair_msg])).
Proof.
  intros Hp H1 H2 He.
  unfold attack_body, classify, collect_or_plot. simpl fst. simpl snd.
  rewrite Hp, aggregate_mode.
  unfold bind, lift, get_field, get_errors_in_rows, getitem,
    set_hammered_rows, set_title, read_hammered_rows, read_table, set_table,
    print, emit, py_exit, raise, ret.
  rewrite H1, H2, He. simpl.
  destruct (Z.eqb h1 h2); reflexivity.
Qed.

(** A sequential record stops the walk in aggregate mode, whatever its
    fields hold. *)
Lemma fails_sequential name v :
  prefix "sequential" name = true ->
  fails (attack_body int_of_str args COLS ROWS (name, v)).
Proof.
  intros Hs. unfold attack_body. apply fails_bind_left.
  unfold classify. simpl. rewrite (sequential_not_pair name Hs), Hs.
  rewrite aggregate_mode.
  repeat (apply fails_bind_right; intros ?).
  unfold py_exit. apply fails_raise.
Qed.

(** With well-formed [row_pairs] the stop is the printed diagnostic
    followed by [exit()]. *)
Lemma sequential_exit name r rp p rest s :
  prefix "sequential" name = true ->
  row_pairs r = Some rp ->
  rp = p :: rest ->
  exists t,
    attack_body int_of_str args COLS ROWS (name, Attack r) s
    = (Raise (SystemExit None),
       mkState (hammered_rows s) (Some t) (aggressors_vs_victims s)
               (trace s ++ [Stdout sequential_msg])).
Proof.
  intros Hs Hrp ->. unfold attack_body, classify. simpl fst. simpl snd.
  rewrite (sequential_not_pair name Hs), Hs, aggregate_mode.
  unfold bind, lift, get_field, getitem, first_item, last_item.
  rewrite Hrp. simpl rev.
  destruct (rev rest ++ [p]) as [|q qs] eqn:E.
  - destruct (rev rest); discriminate.
  - simpl. eauto.
Qed.

Lemma attack_set_body_renders item s :
  match attack_set_body int_of_str args COLS ROWS item s with
  | (Ok _, s') =>
      List.length (aggregate_renders (trace s'))
      = S (List.length (aggregate_renders (trace s)))
  | (Raise _, s') =>
      aggregate_renders (trace s') = aggregate_renders (trace s)
  end.
Proof.
  unfold attack_set_body.
  set (l := if dict_has String.eqb "read_count" (snd item)
            then dict_pop String.eqb "read_count" (snd item)
            else snd item).
  unfold bind at 1. unfold set_table at 1.
  set (s0 := mkState (hammered_rows s) (title s) [] (trace s)).
  unfold bind at 1.
  pose proof (quiet_for_each (attack_body int_of_str args COLS ROWS) l
                (quiet_attack_body int_of_str args COLS ROWS) s0) as Hq.
  destruct (for_each (attack_body int_of_str args COLS ROWS) l s0)
    as [[[]|e] s1]; simpl in Hq; [|exact Hq].
  rewrite aggregate_mode. unfold bind, read_table.
  pose proof (plot_aggressors_vs_victims_renders
                (aggressors_vs_victims s1) (annotate args) s1) as Hp.
  destruct (plot_aggressors_vs_victims (aggressors_vs_victims s1)
              (annotate args) s1) as [[[]|e] s2].
  - destruct Hp as [p Hp]. rewrite Hp, length_app, Hq. simpl. lia.
  - rewrite Hp. exact Hq.
Qed.

Lemma walk_renders log s s' :
  walk int_of_str args COLS ROWS log s = (Ok tt, s') ->
  List.length (aggregate_renders (trace s'))
  = (List.length (aggregate_renders (trace s)) + List.length log)%nat.
Proof.
  unfold walk. revert s. induction log as [|item log IH]; intros s H;
    simpl in H.
  - inversion H; subst. simpl. lia.
  - unfold bind in H. pose proof (attack_set_body_renders item s) as Hb.
    destruct (attack_set_body int_of_str args COLS ROWS item s)
      as [[[]|e] s1]; [|discriminate].
    apply IH in H. rewrite H, Hb. simpl. lia.
Qed.

Lemma walk_renders_le log s :
  (List.length
     (aggregate_renders (trace (snd (walk int_of_str args COLS ROWS log s))))
   <= List.length (aggregate_renders (trace s)) + List.length log)%nat.
Proof.
  unfold walk. revert s. induction log as [|item log IH]; intros s; simpl.
  - lia.
  - unfold bind. pose proof (attack_set_body_renders item s) as Hb.
    destruct (attack_set_body int_of_str args COLS ROWS item s)
      as [[[]|e] s1].
    + specialize (IH s1). lia.
    + simpl. rewrite Hb. lia.
Qed.

(** C3 (amended). In aggregate mode, a walk that reaches the end of the
    log has shown one aggregate plot per attack set of the log. *)
Theorem one_aggregate_render_per_attack_set (log_data : AttackLog) :
  fst (main int_of_str args COLS ROWS log_data) = Ok tt ->
  List.length
    (aggregate_renders (trace (snd (main int_of_str args COLS ROWS log_data))))
  = List.length log_data.
Proof.
  unfold main. intros H.
  destruct (walk int_of_str args COLS ROWS log_data init_state)
    as [r s'] eqn:E. simpl in *. subst r.
  apply walk_renders in E. exact E.
Qed.

Lemma attack_set_with_sequential_fails
      (name : string) (aset : AttackSetResult) (a : string) (v : set_entry)
      (s : state) :
  In (a, v) aset ->
  prefix "sequential" a = true ->
  exists e s',
    attack_set_body int_of_str args COLS ROWS (name, aset) s = (Raise e, s') /\
    aggregate_renders (trace s') = aggregate_renders (trace s).
Proof.
  intros Hin Hs. unfold attack_set_body. simpl snd.
  set (l := if dict_has String.eqb "read_count" aset
            then dict_pop String.eqb "read_count" aset
            else aset).
  assert (Hl : In (a, v) l).
  { subst l. destruct (dict_has String.eqb "read_count" aset); [|exact Hin].
    apply In_dict_pop; [apply sequential_not_read_count|]; assumption. }
  unfold bind at 1. unfold set_table at 1.
  set (s0 := mkState (hammered_rows s) (title s) [] (trace s)).
  unfold bind at 1.
  pose proof (quiet_for_each (attack_body int_of_str args COLS ROWS) l
                (quiet_attack_body int_of_str args COLS ROWS) s0) as Hq.
  destruct (fails_for_each (attack_body int_of_str args COLS ROWS) l (a, v)
              Hl (fails_sequential a v Hs) s0) as [e He].
  destruct (for_each (attack_body int_of_str args COLS ROWS) l s0)
    as [[[]|e'] s1]; simpl in *; [discriminate|].
  exists e', s1. split; [reflexivity|exact Hq].
Qed.

(** C6 (amended). In aggregate mode, a log with a sequential record in
    one of its attack sets ends in an abort, and the aggregate plots shown
    are only those the walk of the earlier attack sets shows: none for the
    set that holds the record, none for a later set, and none at all when
    the record is in the first set. *)
Theorem sequential_aborts_after_earlier_sets
        (pre post : AttackLog) (name : string) (aset : AttackSetResult)
        (a : string) (v : set_entry) :
  In (a, v) aset ->
  prefix "sequential" a = true ->
  (exists e,
      fst (main int_of_str args COLS ROWS (pre ++ (name, aset) :: post))
      = Raise e) /\
  aggregate_renders
    (trace (snd (main int_of_str args COLS ROWS (pre ++ (name, aset) :: post))))
  = aggregate_renders (trace (snd (main int_of_str args COLS ROWS pre))) /\
  (List.length
     (aggregate_renders
        (trace (snd (main int_of_str args COLS ROWS
                          (pre ++ (name, aset) :: post)))))
   <= List.length pre)%nat.
Proof.
  intros Hin Hs. unfold main, walk. rewrite for_each_app.
  pose proof (walk_renders pre init_state) as Hw. unfold walk in Hw.
  destruct (for_each (attack_set_body int_of_str args COLS ROWS) pre
              init_state) as [[[]|e] s1] eqn:E.
  - simpl for_each. unfold bind.
    destruct (attack_set_with_sequential_fails name aset a v s1 Hin Hs)
      as (e & s' & Hb & Hr).
    rewrite Hb. simpl. repeat split; eauto.
    rewrite Hr, (Hw s1 eq_refl). simpl. lia.
  - simpl. repeat split; eauto.
    pose proof (walk_renders_le pre init_state) as Hle.
    unfold walk in Hle. rewrite E in Hle. exact Hle.
Qed.

End WalkerClaims.

Section TableClaims.

Variable int_of_str : string -> option Z.
Variable args : Args.
Variables COLS ROWS : Z.

Hypothesis aggregate_mode : aggressors_vs_victims_flag args = true.

(** C10. In aggregate mode, when the walk of an attack set reaches a pair
    record whose two hammered rows differ, the walk ends in [exit()] after
    the diagnostic, and the table of the final state already holds that
    record's victim entries under [hammer_row_1]: it was written before
    the two rows were compared. *)
Theorem table_written_before_abort
        (name : string) (r : AttackRecord) (h1 h2 : Z) (e : ErrorsInRows)
        (l rest : AttackSetResult) (s s1 : state) :
  prefix "pair" name = true ->
  hammer_row_1 r = Some h1 ->
  hammer_row_2 r = Some h2 ->
  errors_in_rows r = Some e ->
  h1 <> h2 ->
  for_each (attack_body int_of_str args COLS ROWS) l s = (Ok tt, s1) ->
  exists s',
    for_each (attack_body int_of_str args COLS ROWS)
             (l ++ (name, Attack r) :: rest) s
    = (Raise (SystemExit None), s') /\
    aggressors_vs_victims s'
    = dict_set Z.eqb h1 e (aggressors_vs_victims s1) /\
    dict_get Z.eqb h1 (aggressors_vs_victims s') = Some e /\
    trace s' = trace s1 ++ [Stdout pair_msg].
Proof.
  intros Hp H1 H2 He Hne Hl. rewrite for_each_app, Hl. simpl for_each.
  unfold bind.
  rewrite (attack_body_pair int_of_str args COLS ROWS aggregate_mode
             name r h1 h2 e s1 Hp H1 H2 He).
  destruct (Z.eqb_spec h1 h2) as [Heq|_]; [contradiction|].
  eexists. split; [reflexivity|]. simpl.
  repeat split. apply dict_get_set_same.
Qed.

(** C1 (amended). In aggregate mode, when two pair records of one attack
    set both hammer the single row [R], the earlier one stores its victim
    entries under [R], and once the later one is folded in the table holds
    under [R] exactly the victim entries of the later record: the
    assignment replaces what the earlier record stored. *)
Theorem later_record_replaces_earlier
        (n1 n2 : string) (r1 r2 : AttackRecord) (R : Z)
        (e1 e2 : ErrorsInRows) (pre : AttackSetResult) (s s0 : state) :
  single_row_pair n1 r1 R e1 ->
  single_row_pair n2 r2 R e2 ->
  for_each (attack_body int_of_str args COLS ROWS) pre s = (Ok tt, s0) ->
  exists sa,
    for_each (attack_body int_of_str args COLS ROWS)
             (pre ++ [(n1, Attack r1)]) s = (Ok tt, sa) /\
    dict_get Z.eqb R (aggressors_vs_victims sa) = Some e1 /\
    forall (mid : AttackSetResult) (s1 : state),
      for_each (attack_body int_of_str args COLS ROWS) mid sa = (Ok tt, s1) ->
      exists s',
        for_each (attack_body int_of_str args COLS ROWS)
                 (pre ++ (n1, Attack r1) :: mid ++ [(n2, Attack r2)]) s
        = (Ok tt, s') /\
        dict_get Z.eqb R (aggressors_vs_victims s') = Some e2.
Proof.
  intros (Hp1 & H11 & H12 & He1) (Hp2 & H21 & H22 & He2) Hpre.
  pose proof (attack_body_pair int_of_str args COLS ROWS aggregate_mode
                n1 r1 R R e1 s0 Hp1 H11 H12 He1) as Hfirst.
  rewrite Z.eqb_refl in Hfirst.
  eexists. split; [|split].
  - rewrite for_each_app, Hpre. simpl for_each. unfold bind.
    rewrite Hfirst. reflexivity.
  - simpl. apply dict_get_set_same.
  - intros mid s1 Hmid.
    replace (pre ++ (n1, Attack r1) :: mid ++ [(n2, Attack r2)])
      with ((pre ++ [(n1, Attack r1)]) ++ mid ++ [(n2, Attack r2)])
      by (rewrite <- app_assoc; reflexivity).
    rewrite for_each_app, for_each_app, Hpre. simpl for_each at 1.
    unfold bind at 1. rewrite Hfirst. unfold ret at 1.
    rewrite for_each_app, Hmid. simpl for_each. unfold bind.
    rewrite (attack_body_pair int_of_str args COLS ROWS aggregate_mode
               n2 r2 R R e2 s1 Hp2 H21 H22 He2).
    rewrite Z.eqb_refl. eexists. split; [reflexivity|].
    simpl. apply dict_get_set_same.
Qed.

Lemma victim_loop_spec aggressor victim acc l :
  victim_loop aggressor victim acc = Ok l ->
  exists bs,
    bitflips l = bitflips acc ++ bs /\
    Forall2 (fun b v => re_bitflips (snd v) = Some b) bs victim.
Proof.
  revert acc. induction victim as [|v victim IH]; intros acc H; simpl in H.
  - inversion H; subst. exists []. rewrite app_nil_r. split; constructor.
  - unfold getitem in H.
    destruct (re_bitflips (snd v)) as [b|] eqn:Eb; simpl in H;
      [|discriminate].
    destruct (re_row (snd v)) as [n|]; simpl in H; [|discriminate].
    apply IH in H. simpl in H. destruct H as (bs & Hbs & Hall).
    exists (b :: bs). split.
    + rewrite Hbs, <- app_assoc. reflexivity.
    + constructor; assumption.
Qed.

(** C7 (amended). A qualifying pair record is folded into the table with
    the entries of its [errors_in_rows] as they are, and the bit-flip
    weight the aggregate renderer takes for each victim row is the
    [bitflips] field that row carries in the log; the per-column flip
    lists are not counted. *)
Theorem recorded_bitflips_are_the_log_field
        (name : string) (r : AttackRecord) (R : Z) (e : ErrorsInRows)
        (s : state) :
  single_row_pair name r R e ->
  exists s',
    attack_body int_of_str args COLS ROWS (name, Attack r) s = (Ok tt, s') /\
    dict_get Z.eqb R (aggressors_vs_victims s') = Some e /\
    forall l,
      victim_loop R e (mkHistLists [] [] [] []) = Ok l ->
      Forall2 (fun b v => re_bitflips (snd v) = Some b) (bitflips l) e.
Proof.
  intros (Hp & H1 & H2 & He).
  rewrite (attack_body_pair int_of_str args COLS ROWS aggregate_mode
             name r R R e s Hp H1 H2 He).
  rewrite Z.eqb_refl. eexists. split; [reflexivity|]. simpl. split.
  - apply dict_get_set_same.
  - intros l Hl. apply victim_loop_spec in Hl.
    destruct Hl as (bs & Hbs & Hall). simpl in Hbs. subst bs. exact Hall.
Qed.

End TableClaims.

(** ** Runs on the sample logs *)

(** The flattening of the two-row sample, four flips long. *)
Lemma flatten_length_witness :
  exists row_labels row_vals col_vals,
    flatten dec_int errors_101_7 = Ok (row_labels, (row_vals, col_vals)) /\
    List.length row_vals = total_flips errors_101_7 /\
    List.length col_vals = total_flips errors_101_7.
Proof. exact (flatten_length dec_int errors_101_7 eq_refl). Defined.

(** Rows "101" and "7", in that order, get the indices 0 and 1. *)
Lemma dense_index_order_injective_witness :
  ["101"; "7"] = map fst errors_101_7 /\
  [0; 0; 0; 1]%nat = dense_vals (enumerate errors_101_7) /\
  (forall i row row_errors,
      In (i, (row, row_errors)) (enumerate errors_101_7) ->
      nth_error ["101"; "7"] i = Some row) /\
  (forall i j li lj,
      nth_error ["101"; "7"] i = Some li ->
      nth_error ["101"; "7"] j = Some lj ->
      (li = lj <-> i = j) /\
      (precedes li lj ["101"; "7"] -> (i < j)%nat)).
Proof.
  exact (dense_index_order_injective dec_int errors_101_7
           ["101"; "7"] [0; 0; 0; 1]%nat [5; 6; 6; 40] eq_refl eq_refl).
Defined.

(** C1 (counterexample). Of two pair records of one attack set hammering
    row 200, with victims 201 and 202, only the second is left under key
    200: the table does not hold the entries of both. *)
Lemma same_aggressor_overwritten :
  fst (main dec_int aggregate_args 1024 16384 log_same_aggressor) = Ok tt /\
  dict_get Z.eqb 200
    (aggressors_vs_victims
       (snd (main dec_int aggregate_args 1024 16384 log_same_aggressor)))
  = Some [("202", row_202)] /\
  ~ (exists vs,
        dict_get Z.eqb 200
          (aggressors_vs_victims
             (snd (main dec_int aggregate_args 1024 16384 log_same_aggressor)))
        = Some vs /\
        In ("201", row_201) vs /\ In ("202", row_202) vs).
Proof.
  split; [reflexivity|]. split; [reflexivity|].
  intros (vs & Hget & H201 & _). vm_compute in Hget.
  inversion Hget; subst vs. simpl in H201.
  destruct H201 as [H|[]]. discriminate H.
Qed.

(** The two records hammering row 200, from the fresh state. *)
Lemma later_record_replaces_earlier_witness :
  exists sa,
    for_each (attack_body dec_int aggregate_args 1024 16384)
             ([] ++ [("pair_200_200",
                      Attack (pair_record 200 200 [("201", row_201)]))])
             init_state = (Ok tt, sa) /\
    dict_get Z.eqb 200 (aggressors_vs_victims sa) = Some [("201", row_201)] /\
    forall (mid : AttackSetResult) (s1 : state),
      for_each (attack_body dec_int aggregate_args 1024 16384) mid sa
      = (Ok tt, s1) ->
      exists s',
        for_each (attack_body dec_int aggregate_args 1024 16384)
                 ([] ++ ("pair_200_200",
                         Attack (pair_record 200 200 [("201", row_201)]))
                     :: mid
                     ++ [("pair_200_200_again",
                          Attack (pair_record 200 200 [("202", row_202)]))])
                 init_state = (Ok tt, s') /\
        dict_get Z.eqb 200 (aggressors_vs_victims s') = Some [("202", row_202)].
Proof.
  exact (later_record_replaces_earlier dec_int aggregate_args 1024 16384
           eq_refl "pair_200_200" "pair_200_200_again"
           (pair_record 200 200 [("201", row_201)])
           (pair_record 200 200 [("202", row_202)])
           200 [("201", row_201)] [("202", row_202)] [] init_state init_state
           (conj eq_refl (conj eq_refl (conj eq_refl eq_refl)))
           (conj eq_refl (conj eq_refl (conj eq_refl eq_refl)))
           eq_refl).
Defined.

(** C2, at a failing input.  A record named "hammer_9" is neither skipped
    nor rejected.  In per-attack mode it is plotted under the title left by
    the pair record before it; in aggregate mode its victims are stored
    under that pair record's hammered row, in place of the pair record's
    own; with no record before it the run ends in a NameError. *)
Theorem unrecognized_record_is_processed :
  main dec_int single_args 1024 16384 log_unknown_after_pair
  = (Ok tt,
     mkState (Some (1, 1)) (Some "Hammered rows: (1, 1)") []
       [SinglePlot (mkSinglePlot "Hammered rows: (1, 1)" [0%nat] ["101"]
                                 [0; 0; 0]%nat [5; 6; 6] 1024 32);
        SinglePlot (mkSinglePlot "Hammered rows: (1, 1)" [0%nat] ["202"]
                                 [0%nat] [9] 1024 32)]) /\
  fst (main dec_int aggregate_args 1024 16384 log_unknown_after_pair) = Ok tt /\
  aggressors_vs_victims
    (snd (main dec_int aggregate_args 1024 16384 log_unknown_after_pair))
  = [(1, [("202", row_202)])] /\
  fst (main dec_int single_args 1024 16384 log_unknown_alone)
  = Raise (NameError "title") /\
  fst (main dec_int aggregate_args 1024 16384 log_unknown_alone)
  = Raise (NameError "hammered_rows").
Proof. repeat split; reflexivity. Qed.

(** C3 (counterexample). A log of two attack sets is walked to its end
    with two aggregate plots shown, not one. *)
Lemma two_attack_sets_two_renders :
  fst (main dec_int aggregate_args 1024 16384 log_two_sets) = Ok tt /\
  List.length
    (aggregate_renders
       (trace (snd (main dec_int aggregate_args 1024 16384 log_two_sets))))
  = 2%nat.
Proof. split; reflexivity. Qed.

(** Two attack sets, two aggregate plots. *)
Lemma one_aggregate_render_per_attack_set_witness :
  List.length
    (aggregate_renders
       (trace (snd (main dec_int aggregate_args 1024 16384 log_two_sets))))
  = List.length log_two_sets.
Proof.
  exact (one_aggregate_render_per_attack_set dec_int aggregate_args 1024 16384
           eq_refl log_two_sets eq_refl).
Defined.

(** C6 (counterexample). The second attack set holds a sequential record,
    the run ends in the abort, and the aggregate plot of the first attack
    set has been shown before it. *)
Lemma render_shown_before_sequential_abort :
  In ("sequential_0_2",
      Attack (sequential_record [(0, 1); (1, 2)] errors_101))
     (List.concat (map snd log_pair_then_sequential)) /\
  fst (main dec_int aggregate_args 1024 16384 log_pair_then_sequential)
  = Raise (SystemExit None) /\
  trace (snd (main dec_int aggregate_args 1024 16384 log_pair_then_sequential))
  = [AggregatePlot
       (mkAggregatePlot "Aggressors (50, 50) vs victims (101, 101)"
                        [101] [50] [3] (1, 1) []);
     Stdout sequential_msg].
Proof. split; [simpl; auto|]. split; reflexivity. Qed.

(** A qualifying attack set, then one with a sequential record. *)
Lemma sequential_aborts_after_earlier_sets_witness :
  (exists e,
      fst (main dec_int aggregate_args 1024 16384
                ([("1000", set_qualifying)] ++ ("2000", set_sequential) :: []))
      = Raise e) /\
  aggregate_renders
    (trace (snd (main dec_int aggregate_args 1024 16384
                      ([("1000", set_qualifying)]
                         ++ ("2000", set_sequential) :: []))))
  = aggregate_renders
      (trace (snd (main dec_int aggregate_args 1024 16384
                        [("1000", set_qualifying)]))) /\
  (List.length
     (aggregate_renders
        (trace (snd (main dec_int aggregate_args 1024 16384
                          ([("1000", set_qualifying)]
                             ++ ("2000", set_sequential) :: [])))))
   <= List.length [("1000", set_qualifying)])%nat.
Proof.
  exact (sequential_aborts_after_earlier_sets dec_int aggregate_args 1024 16384
           eq_refl [("1000", set_qualifying)] [] "2000" set_sequential
           "sequential_0_2"
           (Attack (sequential_record [(0, 1); (1, 2)] errors_101))
           (or_introl eq_refl) eq_refl).
Defined.

(** C7 (counterexample). Row 301 has one flip record in its column lists
    and 7 in its [bitflips] field; the table keeps the field, and the
    aggregate plot weighs the row with 7. *)
Lemma bitflips_field_not_flip_count :
  single_row_pair "pair_300_300" (pair_record 300 300 [("301", row_301)])
                  300 [("301", row_301)] /\
  row_flip_count row_301 = 1%nat /\
  dict_get Z.eqb 300
    (aggressors_vs_victims
       (snd (main dec_int aggregate_args 1024 16384 log_skewed)))
  = Some [("301", row_301)] /\
  re_bitflips row_301 = Some 7 /\
  trace (snd (main dec_int aggregate_args 1024 16384 log_skewed))
  = [AggregatePlot
       (mkAggregatePlot "Aggressors (300, 300) vs victims (301, 301)"
                        [301] [300] [7] (1, 1) [])].
Proof. repeat split; reflexivity. Qed.

(** Row 301, whose [bitflips] field is 7. *)
Lemma recorded_bitflips_are_the_log_field_witness :
  exists s',
    attack_body dec_int aggregate_args 1024 16384
                ("pair_300_300", Attack (pair_record 300 300 [("301", row_301)]))
                init_state = (Ok tt, s') /\
    dict_get Z.eqb 300 (aggressors_vs_victims s') = Some [("301", row_301)] /\
    forall l,
      victim_loop 300 [("301", row_301)] (mkHistLists [] [] [] []) = Ok l ->
      Forall2 (fun b v => re_bitflips (snd v) = Some b) (bitflips l)
              [("301", row_301)].
Proof.
  exact (recorded_bitflips_are_the_log_field dec_int aggregate_args 1024 16384
           eq_refl "pair_300_300" (pair_record 300 300 [("301", row_301)])
           300 [("301", row_301)] init_state
           (conj eq_refl (conj eq_refl (conj eq_refl eq_refl)))).
Defined.

(** C9, at a failing input.  Each of the two disqualifying records prints
    its diagnostic and ends the run in [exit()], which carries no status:
    the process exit status is 0, that of a run without error. *)
Theorem mode_mismatch_exit_status_zero :
  main dec_int aggregate_args 1024 16384 log_unequal_pair
  = (Raise (SystemExit None),
     mkState (Some (50, 60)) (Some "Hammered rows: (50, 60)")
             [(50, errors_101)] [Stdout pair_msg]) /\
  exit_status (fst (main dec_int aggregate_args 1024 16384 log_unequal_pair))
  = 0 /\
  main dec_int aggregate_args 1024 16384 log_sequential
  = (Raise (SystemExit None),
     mkState None (Some "Sequential attack on rows from 1 to 2")
             [] [Stdout sequential_msg]) /\
  exit_status (fst (main dec_int aggregate_args 1024 16384 log_sequential))
  = 0.
Proof. repeat split; reflexivity. Qed.

(** The pair record hammering rows 50 and 60. *)
Lemma table_written_before_abort_witness :
  exists s',
    for_each (attack_body dec_int aggregate_args 1024 16384)
             ([] ++ ("pair_50_60", Attack (pair_record 50 60 errors_101)) :: [])
             init_state
    = (Raise (SystemExit None), s') /\
    aggressors_vs_victims s'
    = dict_set Z.eqb 50 errors_101 (aggressors_vs_victims init_state) /\
    dict_get Z.eqb 50 (aggressors_vs_victims s') = Some errors_101 /\
    trace s' = trace init_state ++ [Stdout pair_msg].
Proof.
  exact (table_written_before_abort dec_int aggregate_args 1024 16384 eq_refl
           "pair_50_60" (pair_record 50 60 errors_101) 50 60 errors_101
           [] [] init_state init_state eq_refl eq_refl eq_refl eq_refl
           ltac:(discriminate) eq_refl).
Defined.

(** ** Ranges and ticks *)

Lemma py_range_from_zero (m step : Z) :
  0 < step -> 0 <= m ->
  py_range 0 (m + 1) step
  = Ok (map (fun k => Z.of_nat k * step) (seq 0 (S (Z.to_nat (m / step))))).
Proof.
  intros Hs Hm. unfold py_range.
  destruct (Z.eqb_spec step 0) as [->|_]; [lia|].
  destruct (Z.ltb_spec 0 step) as [_|]; [|lia].
  replace (m + 1 - 0 + step - 1) with (m + 1 * step) by lia.
  rewrite Z.div_add by lia.
  assert (0 <= m / step) by (apply Z.div_pos; lia).
  replace (Z.to_nat (m / step + 1)) with (S (Z.to_nat (m / step))) by lia.
  f_equal.
Qed.

Lemma Forall_map_seq (P : Z -> Prop) (f : nat -> Z) (a n : nat) :
  (forall k, (a <= k < a + n)%nat -> P (f k)) -> Forall P (map f (seq a n)).
Proof.
  intros H. apply Forall_forall. intros x Hx. apply in_map_iff in Hx.
  destruct Hx as (k & <- & Hk). apply in_seq in Hk. auto.
Qed.

(** X10. For a maximum [M >= 0] the colour bar of either plot gets the
    ticks [0, step, 2 step, ...] up to the largest multiple of the step
    that is at most [M]: the range never raises, every tick is between 0
    and [M], the last one is less than a step below [M], and there are at
    most 40 of them. *)
Theorem colorbar_ticks_bounded (M : Z) :
  0 <= M ->
  exists ticks,
    single_colorbar_ticks M = Ok ticks /\
    aggregate_colorbar_ticks M = Ok ticks /\
    ticks = map (fun k => Z.of_nat k * single_ticks_step M)
                (seq 0 (S (Z.to_nat (M / single_ticks_step M)))) /\
    Forall (fun t => 0 <= t <= M) ticks /\
    M - single_ticks_step M < last ticks 0 /\
    (List.length ticks <= 40)%nat.
Proof.
  intros HM.
  unfold single_colorbar_ticks, aggregate_colorbar_ticks, aggregate_ticks_step,
    single_ticks_step.
  set (step := Z.max 1 (M / 20)).
  assert (Hstep : 1 <= step) by (subst step; lia).
  assert (Hq : 0 <= M / step) by (apply Z.div_pos; lia).
  pose proof (Z.mul_div_le M step ltac:(lia)) as Hle.
  pose proof (Z.mul_succ_div_gt M step ltac:(lia)) as Hgt.
  eexists. split; [apply py_range_from_zero; lia|].
  split; [apply py_range_from_zero; lia|].
  split; [reflexivity|]. split; [|split].
  - apply Forall_map_seq. intros k Hk.
    assert (Z.of_nat k <= M / step) by lia. nia.
  - rewrite seq_S, map_app. cbn [map]. rewrite last_last. simpl.
    rewrite Z2Nat.id by lia. lia.
  - rewrite length_map, length_seq.
    assert (M / step < 40); [|lia].
    apply Z.div_lt_upper_bound; [lia|].
    pose proof (ticks_floor M). subst step. lia.
Qed.

(** The ticks for a maximum of 39: forty of them, one per unit. *)
Lemma colorbar_ticks_bounded_witness :
  exists ticks,
    single_colorbar_ticks 39 = Ok ticks /\
    aggregate_colorbar_ticks 39 = Ok ticks /\
    ticks = map (fun k => Z.of_nat k * single_ticks_step 39)
                (seq 0 (S (Z.to_nat (39 / single_ticks_step 39)))) /\
    Forall (fun t => 0 <= t <= 39) ticks /\
    39 - single_ticks_step 39 < last ticks 0 /\
    (List.length ticks <= 40)%nat.
Proof. apply (colorbar_ticks_bounded 39). lia. Defined.

(** X11. With a positive column step, the column bin edges are the
    multiples of the step from 0 to the largest one that is at most [cols]:
    there are [cols // col_step + 1] of them, and the last edge is [cols]
    exactly when the step divides [cols]. *)
Theorem column_edges_multiples (cols col_step : Z) :
  0 < col_step -> 0 <= cols ->
  exists edges,
    column_edges cols col_step = Ok edges /\
    edges = map (fun k => Z.of_nat k * col_step)
                (seq 0 (S (Z.to_nat (cols / col_step)))) /\
    List.length edges = S (Z.to_nat (cols / col_step)) /\
    last edges 0 = cols / col_step * col_step /\
    (last edges 0 = cols <-> cols mod col_step = 0).
Proof.
  intros Hs Hc. unfold column_edges.
  assert (Hq : 0 <= cols / col_step) by (apply Z.div_pos; lia).
  eexists. split; [apply py_range_from_zero; lia|].
  split; [reflexivity|]. split; [|split].
  - rewrite length_map, length_seq. reflexivity.
  - rewrite seq_S, map_app. cbn [map]. rewrite last_last. simpl. rewrite Z2Nat.id by lia.
    reflexivity.
  - rewrite seq_S, map_app. cbn [map]. rewrite last_last. simpl. rewrite Z2Nat.id by lia.
    pose proof (Z.div_mod cols col_step ltac:(lia)). lia.
Qed.

(** 1024 columns in steps of 204: the last edge is 1020. *)
Lemma column_edges_multiples_witness :
  exists edges,
    column_edges 1024 204 = Ok edges /\
    edges = map (fun k => Z.of_nat k * 204)
                (seq 0 (S (Z.to_nat (1024 / 204)))) /\
    List.length edges = S (Z.to_nat (1024 / 204)) /\
    last edges 0 = 1024 / 204 * 204 /\
    (last edges 0 = 1024 <-> 1024 mod 204 = 0).
Proof. apply (column_edges_multiples 1024 204); lia. Defined.

(** X12. When [--plot-columns] is positive and divides the number of
    columns, the step the walker passes gives [plot_columns + 1] edges, from
    0 to [COLS]: the grid has [plot_columns] columns. *)
Theorem column_edges_of_plot_columns (args : Args) (COLS : Z) :
  0 < plot_columns args -> 0 < COLS ->
  COLS mod plot_columns args = 0 ->
  exists edges,
    column_edges COLS (COLS / plot_columns args) = Ok edges /\
    List.length edges = S (Z.to_nat (plot_columns args)) /\
    hd_error edges = Some 0 /\
    last edges 0 = COLS.
Proof.
  intros Hp Hc Hmod.
  pose proof (Z.div_mod COLS (plot_columns args) ltac:(lia)) as Hdm.
  set (step := COLS / plot_columns args) in *.
  assert (Hstep : 0 < step) by nia.
  assert (Hq : COLS / step = plot_columns args).
  { replace COLS with (plot_columns args * step) by lia.
    apply Z.div_mul. lia. }
  unfold column_edges. rewrite py_range_from_zero by lia. rewrite Hq.
  eexists. split; [reflexivity|]. split; [|split].
  - rewrite length_map, length_seq. reflexivity.
  - reflexivity.
  - rewrite seq_S, map_app. cbn [map]. rewrite last_last. simpl.
    rewrite Z2Nat.id by lia. lia.
Qed.

(** The default 32 columns over the 1024 columns of the sample geometry. *)
Lemma column_edges_of_plot_columns_witness :
  exists edges,
    column_edges 1024 (1024 / plot_columns single_args) = Ok edges /\
    List.length edges = S (Z.to_nat (plot_columns single_args)) /\
    hd_error edges = Some 0 /\
    last edges 0 = 1024.
Proof.
  apply (column_edges_of_plot_columns single_args 1024);
    [reflexivity | reflexivity | reflexivity].
Defined.

(** ** More on the flattening *)

Section FlattenMore.

Variable int_of_str : string -> option Z.

Lemma zipped_app (a1 a2 : list nat) (b1 b2 : list Z) :
  List.length a1 = List.length b1 ->
  zipped (a1 ++ a2) (b1 ++ b2) = zipped a1 b1 ++ zipped a2 b2.
Proof.
  unfold zipped. revert b1. induction a1 as [|x a1 IH]; intros [|y b1] H;
    simpl in *; try discriminate; [reflexivity|].
  rewrite IH by lia. reflexivity.
Qed.

Lemma flips_loop_points i col ce acc out :
  List.length (fst acc) = List.length (snd acc) ->
  flips_loop int_of_str i col ce acc = Ok out ->
  List.length (fst out) = List.length (snd out) /\
  zipped (fst out) (snd out)
  = zipped (fst acc) (snd acc) ++ repeat (i, int_of_str col) (List.length ce).
Proof.
  revert acc. induction ce as [|f ce IH]; intros acc Hlen H; simpl in H.
  - inversion H; subst. simpl. rewrite app_nil_r. auto.
  - unfold py_int in H. destruct (int_of_str col) as [c|] eqn:Ec; simpl in H;
      [|discriminate].
    apply IH in H; [|simpl; rewrite !length_app; simpl; lia].
    simpl in H. destruct H as [H1 H2]. split; [exact H1|].
    rewrite H2, zipped_app by exact Hlen. rewrite <- app_assoc. reflexivity.
Qed.

Lemma cols_loop_points i cols acc out :
  List.length (fst acc) = List.length (snd acc) ->
  cols_loop int_of_str i cols acc = Ok out ->
  List.length (fst out) = List.length (snd out) /\
  zipped (fst out) (snd out)
  = zipped (fst acc) (snd acc)
    ++ flat_map (fun c => repeat (i, int_of_str (fst c)) (List.length (snd c)))
                cols.
Proof.
  revert acc. induction cols as [|[col ce] cols IH]; intros acc Hlen H;
    simpl in H.
  - inversion H; subst. simpl. rewrite app_nil_r. auto.
  - destruct (flips_loop int_of_str i col ce acc) as [mid|] eqn:E;
      simpl in H; [|discriminate].
    apply flips_loop_points in E; [|exact Hlen]. destruct E as [E1 E2].
    apply IH in H; [|exact E1]. destruct H as [H1 H2]. split; [exact H1|].
    rewrite H2, E2, <- app_assoc. reflexivity.
Qed.

Lemma rows_loop_points rows acc out :
  List.length (fst (snd acc)) = List.length (snd (snd acc)) ->
  rows_loop int_of_str rows acc = Ok out ->
  zipped (fst (snd out)) (snd (snd out))
  = zipped (fst (snd acc)) (snd (snd acc))
    ++ flat_map (fun ir => row_points int_of_str (fst ir) (snd (snd ir))) rows.
Proof.
  revert acc. induction rows as [|[i [row re]] rows IH]; intros acc Hlen H;
    simpl in H.
  - inversion H; subst. simpl. rewrite app_nil_r. reflexivity.
  - unfold getitem in H. unfold row_points at 1, cols_of. simpl.
    destruct (re_col re) as [cols|]; simpl in H; [|discriminate].
    destruct (cols_loop int_of_str i cols (snd acc)) as [vals|] eqn:E;
      simpl in H; [|discriminate].
    apply cols_loop_points in E; [|exact Hlen]. destruct E as [E1 E2].
    apply IH in H; [|exact E1]. simpl in H.
    rewrite H, E2, <- app_assoc. reflexivity.
Qed.

(** X1. When the flattening returns, its two sequences read in parallel
    are the flip records of the input as points: for each row in insertion
    order, for each of its columns in order, one point (dense index of the
    row, [int] of the column label) per flip record of that column. *)
Theorem flatten_points (e : ErrorsInRows) (row_labels : list string)
        (row_vals : list nat) (col_vals : list Z) :
  flatten int_of_str e = Ok (row_labels, (row_vals, col_vals)) ->
  zipped row_vals col_vals = flip_points int_of_str e.
Proof.
  unfold flatten. intros H. apply rows_loop_points in H; [|reflexivity].
  exact H.
Qed.

Lemma StronglySorted_app (l1 l2 : list nat) :
  StronglySorted le l1 -> StronglySorted le l2 ->
  (forall x y, In x l1 -> In y l2 -> (x <= y)%nat) ->
  StronglySorted le (l1 ++ l2).
Proof.
  intros H1 H2 H. induction l1 as [|a l1 IH]; simpl; [exact H2|].
  inversion H1; subst. constructor.
  - apply IH; [assumption|]. intros x y Hx Hy. apply H; simpl; auto.
  - apply Forall_app. split; [assumption|].
    apply Forall_forall. intros y Hy. apply H; simpl; auto.
Qed.

Lemma StronglySorted_repeat (a k : nat) : StronglySorted le (repeat a k).
Proof.
  induction k as [|k IH]; simpl; constructor; [exact IH|].
  apply Forall_forall. intros x Hx. apply repeat_spec in Hx. lia.
Qed.

Lemma dense_vals_from {A : Type} (f : A -> nat) (l : list A) (a : nat) :
  let vals := flat_map (fun ir => repeat (fst ir) (f (snd ir)))
                       (combine (seq a (List.length l)) l) in
  Forall (fun v => (a <= v < a + List.length l)%nat) vals /\
  StronglySorted le vals.
Proof.
  revert a. induction l as [|x l IH]; intros a; simpl.
  - split; constructor.
  - destruct (IH (S a)) as [Hb Hs]. split.
    + apply Forall_app. split.
      * apply Forall_forall. intros v Hv. apply repeat_spec in Hv. lia.
      * eapply Forall_impl; [|exact Hb]. simpl. intros v Hv. lia.
    + apply StronglySorted_app; [apply StronglySorted_repeat|exact Hs|].
      intros v w Hv Hw. apply repeat_spec in Hv.
      rewrite Forall_forall in Hb. apply Hb in Hw. lia.
Qed.

(** X2. When the flattening returns, the dense indices in [row_vals] are
    in non-decreasing order and each of them is a position of [row_labels]:
    every plotted point has its row label. *)
Theorem row_vals_sorted_in_range (e : ErrorsInRows)
        (row_labels : list string) (row_vals : list nat) (col_vals : list Z) :
  flatten int_of_str e = Ok (row_labels, (row_vals, col_vals)) ->
  List.length row_labels = List.length e /\
  Forall (fun v => (v < List.length row_labels)%nat) row_vals /\
  StronglySorted le row_vals.
Proof.
  intros H. apply flatten_spec in H. simpl in H.
  destruct H as (Hl & Hv & _ & _). subst row_labels row_vals.
  rewrite length_map. split; [reflexivity|].
  destruct (dense_vals_from (fun r : string * RowErrors => row_flip_count (snd r))
              e 0) as [Hb Hs].
  split; [|exact Hs].
  eapply Forall_impl; [|exact Hb]. simpl. intros v Hv. lia.
Qed.





End FlattenMore.

(** The two-row sample: three points in row 0, one in row 1. *)
Lemma flatten_points_witness :
  zipped [0; 0; 0; 1]%nat [5; 6; 6; 40] = flip_points dec_int errors_101_7.
Proof.
  exact (flatten_points dec_int errors_101_7 ["101"; "7"] [0; 0; 0; 1]%nat
           [5; 6; 6; 40] eq_refl).
Defined.

(** The two-row sample again. *)
Lemma row_vals_sorted_in_range_witness :
  List.length ["101"; "7"] = List.length errors_101_7 /\
  Forall (fun v => (v < List.length ["101"; "7"])%nat) [0; 0; 0; 1]%nat /\
  StronglySorted le [0; 0; 0; 1]%nat.
Proof.
  exact (row_vals_sorted_in_range dec_int errors_101_7 ["101"; "7"]
           [0; 0; 0; 1]%nat [5; 6; 6; 40] eq_refl).
Defined.

(** ** The single-attack renderer *)

Section SinglePlotFacts.

Variable int_of_str : string -> option Z.


(** X4. When [plot_single_attack] returns, it has shown exactly one plot
    and changed nothing else: the plot has the title it was given, the row
    labels of the input in insertion order, and one y tick [0 .. n-1] per
    label. *)
Theorem plot_single_attack_shows
        (data : set_entry) (rows cols col_step : Z) (t : string)
        (s : state) :
  fst (plot_single_attack int_of_str data rows cols col_step t s) = Ok tt ->
  exists e p,
    get_errors_in_rows data = Ok e /\
    snd (plot_single_attack int_of_str data rows cols col_step t s)
    = mkState (hammered_rows s) (title s) (aggressors_vs_victims s)
              (trace s ++ [SinglePlot p]) /\
    sp_title p = t /\
    sp_row_labels p = map fst e /\
    sp_yticks p = seq 0 (List.length e) /\
    List.length (sp_yticks p) = List.length (sp_row_labels p) /\
    flatten int_of_str e = Ok (sp_row_labels p, (sp_row_vals p, sp_col_vals p)).
Proof.
  unfold plot_single_attack, bind, lift.
  destruct (get_errors_in_rows data) as [e|x]; [|discriminate].
  destruct (flatten int_of_str e) as [[ls [rv cv]]|x] eqn:Ef; [|discriminate].
  simpl. destruct (Z.eqb_spec col_step 0) as [|Hne]; [discriminate|].
  destruct rv as [|v rv]; [discriminate|]. intros _.
  pose proof (flatten_spec int_of_str e _ Ef) as (Hl & _). simpl in Hl.
  eexists e, _. split; [reflexivity|]. split; [reflexivity|]. simpl.
  subst ls. repeat split; auto.
  rewrite length_seq, length_map. reflexivity.
Qed.

(** X5. A record without a single flip record (no rows, or rows whose
    column lists are all empty) is not plotted: with a non-zero column step
    [plot_single_attack] raises the ValueError of [min] on an empty
    sequence and leaves the state as it was. *)
Theorem plot_single_attack_no_flips
        (data : set_entry) (e : ErrorsInRows) (rows cols col_step : Z)
        (title : string) (s : state) :
  get_errors_in_rows data = Ok e ->
  readable int_of_str e = true ->
  total_flips e = 0%nat ->
  col_step <> 0 ->
  plot_single_attack int_of_str data rows cols col_step title s
  = (Raise (ValueError "min() arg is an empty sequence"), s).
Proof.
  intros He Hr Hz Hne. unfold plot_single_attack, bind, lift. rewrite He.
  destruct (flatten_total int_of_str e Hr) as [[ls [rv cv]] Ef].
  rewrite Ef. simpl. destruct (Z.eqb_spec col_step 0) as [|_]; [contradiction|].
  apply flatten_spec in Ef. simpl in Ef. destruct Ef as (_ & _ & Hlen & _).
  destruct rv as [|v rv]; [reflexivity|]. simpl in Hlen. lia.
Qed.

End SinglePlotFacts.

(** ** The aggregate renderer *)

Lemma combine_snoc {A B : Type} (l1 : list A) (l2 : list B) (a : A) (b : B) :
  List.length l1 = List.length l2 ->
  combine (l1 ++ [a]) (l2 ++ [b]) = combine l1 l2 ++ [(a, b)].
Proof.
  revert l2. induction l1 as [|x l1 IH]; intros [|y l2] H; simpl in *;
    try discriminate; [reflexivity|].
  rewrite IH by lia. reflexivity.
Qed.

Lemma victim_loop_lists aggressor victim acc l :
  parallel acc ->
  victim_loop aggressor victim acc = Ok l ->
  parallel l /\
  aggressors l = aggressors acc ++ repeat aggressor (List.length victim) /\
  map Some (victims l)
  = map Some (victims acc) ++ map (fun v => re_row (snd v)) victim /\
  map Some (bitflips l)
  = map Some (bitflips acc) ++ map (fun v => re_bitflips (snd v)) victim.
Proof.
  revert acc. induction victim as [|v victim IH]; intros acc Hp H; simpl in H.
  - inversion H; subst. simpl. rewrite !app_nil_r. auto.
  - unfold getitem in H.
    destruct (re_bitflips (snd v)) as [b|] eqn:Eb; simpl in H; [|discriminate].
    destruct (re_row (snd v)) as [n|] eqn:En; simpl in H; [|discriminate].
    apply IH in H.
    + simpl in H. destruct H as (Hp' & Ha & Hv & Hb). split; [exact Hp'|].
      rewrite Ha, Hv, Hb, !map_app. simpl. rewrite Eb, En, <- !app_assoc.
      repeat split.
    + destruct Hp as (H1 & H2 & H3). unfold parallel. simpl.
      rewrite !length_app. simpl. repeat split; try lia.
      rewrite H3, !combine_snoc; auto. rewrite length_combine. lia.
Qed.

Lemma data_loop_lists_from data acc l :
  parallel acc ->
  data_loop data acc = Ok l ->
  parallel l /\
  aggressors l
  = aggressors acc
    ++ flat_map (fun av => repeat (fst av) (List.length (snd av))) data /\
  map Some (victims l)
  = map Some (victims acc)
    ++ map (fun v => re_row (snd v)) (table_entries data) /\
  map Some (bitflips l)
  = map Some (bitflips acc)
    ++ map (fun v => re_bitflips (snd v)) (table_entries data).
Proof.
  revert acc. induction data as [|[a vs] data IH]; intros acc Hp H; simpl in H.
  - inversion H; subst. simpl. rewrite !app_nil_r. auto.
  - destruct (victim_loop a vs acc) as [mid|] eqn:E; simpl in H;
      [|discriminate].
    apply victim_loop_lists in E; [|exact Hp].
    destruct E as (Hm & Ea & Ev & Eb).
    apply IH in H; [|exact Hm]. destruct H as (Hl & Ha & Hv & Hb).
    split; [exact Hl|]. unfold table_entries. simpl.
    rewrite Ha, Hv, Hb, Ea, Ev, Eb, !map_app, <- !app_assoc. auto.
Qed.

Lemma parallel_empty : parallel (mkHistLists [] [] [] []).
Proof. repeat split. Qed.

Lemma data_loop_parallel (data : table) (l : hist_lists) :
  data_loop data (mkHistLists [] [] [] []) = Ok l ->
  aggressors l
  = flat_map (fun av => repeat (fst av) (List.length (snd av))) data /\
  map Some (victims l) = map (fun v => re_row (snd v)) (table_entries data) /\
  map Some (bitflips l)
  = map (fun v => re_bitflips (snd v)) (table_entries data) /\
  avb_packed l = combine (combine (aggressors l) (victims l)) (bitflips l) /\
  List.length (aggressors l) = List.length (table_entries data) /\
  List.length (victims l) = List.length (table_entries data) /\
  List.length (bitflips l) = List.length (table_entries data).
Proof.
  intros H. apply data_loop_lists_from in H; [|apply parallel_empty].
  simpl in H. destruct H as ((H1 & H2 & H3) & Ha & Hv & Hb).
  assert (Hlen : List.length (victims l) = List.length (table_entries data)).
  { rewrite <- (length_map Some), Hv, length_map. reflexivity. }
  repeat split; auto; lia.
Qed.

(** X6. When the loops of the aggregate renderer return, the three lists
    handed to [hist2d] are parallel, one entry per victim entry of the
    table in table order: the aggressor is the key the entry is stored
    under, the victim is the entry's [row] and the weight is its
    [bitflips]; the list kept for the annotation is the three zipped. *)
Theorem data_loop_lists (data : table) (l : hist_lists) :
  data_loop data (mkHistLists [] [] [] []) = Ok l ->
  aggressors l
  = flat_map (fun av => repeat (fst av) (List.length (snd av))) data /\
  map Some (victims l) = map (fun v => re_row (snd v)) (table_entries data) /\
  map Some (bitflips l)
  = map (fun v => re_bitflips (snd v)) (table_entries data) /\
  avb_packed l = combine (combine (aggressors l) (victims l)) (bitflips l) /\
  List.length (aggressors l) = List.length (table_entries data) /\
  List.length (victims l) = List.length (table_entries data) /\
  List.length (bitflips l) = List.length (table_entries data).
Proof.
  intros H.
  destruct (data_loop_lists_from data _ l parallel_empty H)
    as ((H1 & H2 & H3) & Ha & Hv & Hb).
  simpl in Ha, Hv, Hb.
  assert (Hlen : List.length (victims l) = List.length (table_entries data)).
  { rewrite <- (length_map Some (victims l)), Hv, length_map. reflexivity. }
  split; [exact Ha|]. split; [exact Hv|]. split; [exact Hb|].
  split; [exact H3|]. split; [lia|]. split; [exact Hlen|lia].
Qed.






Lemma fold_min_le (l : list Z) (a : Z) :
  fold_left Z.min l a <= a /\ Forall (fun x => fold_left Z.min l a <= x) l.
Proof.
  revert a. induction l as [|y l IH]; intros a; simpl.
  - split; [lia|constructor].
  - destruct (IH (Z.min a y)) as [H1 H2]. split; [lia|].
    constructor; [lia|exact H2].
Qed.

Lemma fold_max_ge (l : list Z) (a : Z) :
  a <= fold_left Z.max l a /\ Forall (fun x => x <= fold_left Z.max l a) l.
Proof.
  revert a. induction l as [|y l IH]; intros a; simpl.
  - split; [lia|constructor].
  - destruct (IH (Z.max a y)) as [H1 H2]. split; [lia|].
    constructor; [lia|exact H2].
Qed.

(** [min(l)] and [max(l)] bound every item of [l]. *)
Lemma py_min_max_bounds (l : list Z) :
  Forall (fun x => py_min l <= x <= py_max l) l.
Proof.
  destruct l as [|a l]; [constructor|]. unfold py_min, py_max.
  destruct (fold_min_le l a) as [H1 H2].
  destruct (fold_max_ge l a) as [H3 H4].
  constructor; [lia|].
  rewrite Forall_forall in *. intros x Hx.
  specialize (H2 x Hx). specialize (H4 x Hx). lia.
Qed.

(** X8. When [plot_aggressors_vs_victims] returns, it has shown exactly
    one plot and changed nothing else; on both axes the number of bins is
    at least 1, and every plotted victim (aggressor) lies in one of the
    unit bins that start at the smallest victim (aggressor). *)
Theorem aggregate_plot_bins (data : table) (annot : string) (s : state) :
  fst (plot_aggressors_vs_victims data annot s) = Ok tt ->
  exists p,
    snd (plot_aggressors_vs_victims data annot s)
    = mkState (hammered_rows s) (title s) (aggressors_vs_victims s)
              (trace s ++ [AggregatePlot p]) /\
    ap_bins p = (py_max (ap_victims p) - py_min (ap_victims p) + 1,
                 py_max (ap_aggressors p) - py_min (ap_aggressors p) + 1) /\
    1 <= fst (ap_bins p) /\
    1 <= snd (ap_bins p) /\
    Forall (fun v => py_min (ap_victims p) <= v
                     < py_min (ap_victims p) + fst (ap_bins p))
           (ap_victims p) /\
    Forall (fun a => py_min (ap_aggressors p) <= a
                     < py_min (ap_aggressors p) + snd (ap_bins p))
           (ap_aggressors p).
Proof.
  unfold plot_aggressors_vs_victims, bind, lift.
  destruct (data_loop data (mkHistLists [] [] [] [])) as [l|x] eqn:E;
    [|discriminate].
  apply data_loop_parallel in E. destruct E as (_ & _ & _ & _ & Ha & Hv & _).
  destruct (victims l) as [|v vs] eqn:Ev; [discriminate|]. intros _.
  destruct (aggressors l) as [|a az] eqn:Ea;
    [simpl in *; rewrite <- Hv in Ha; discriminate|].
  eexists. split; [reflexivity|]. cbn [ap_bins ap_victims ap_aggressors fst snd].
  pose proof (py_min_max_bounds (v :: vs)) as Bv.
  pose proof (py_min_max_bounds (a :: az)) as Ba.
  assert (Mv := Forall_inv Bv). assert (Ma := Forall_inv Ba).
  cbv beta in Mv, Ma.
  split; [reflexivity|]. split; [lia|]. split; [lia|]. split.
  - eapply Forall_impl; [|exact Bv]. simpl. intros x Hx. lia.
  - eapply Forall_impl; [|exact Ba]. simpl. intros x Hx. lia.
Qed.

(** X9. The plot is annotated only under [--annotate bitflips]: then there
    is one text per plotted entry, carrying that entry's aggressor, victim
    and bit-flip count; under any other value there is none. *)
Theorem aggregate_plot_texts (data : table) (annot : string) (s : state) :
  fst (plot_aggressors_vs_victims data annot s) = Ok tt ->
  exists p,
    trace (snd (plot_aggressors_vs_victims data annot s))
    = trace s ++ [AggregatePlot p] /\
    ap_texts p
    = (if String.eqb annot "bitflips"
       then combine (combine (ap_aggressors p) (ap_victims p)) (ap_bitflips p)
       else []) /\
    (String.eqb annot "bitflips" = true ->
     List.length (ap_texts p) = List.length (ap_victims p)).
Proof.
  unfold plot_aggressors_vs_victims, bind, lift.
  destruct (data_loop data (mkHistLists [] [] [] [])) as [l|x] eqn:E;
    [|discriminate].
  apply data_loop_parallel in E. destruct E as (_ & _ & _ & Hp & Ha & Hv & Hb).
  destruct (victims l) as [|v vs] eqn:Ev; [discriminate|]. intros _.
  eexists. split; [reflexivity|]. cbn [ap_texts ap_victims ap_aggressors
                                        ap_bitflips].
  destruct (String.eqb annot "bitflips").
  - split; [exact Hp|]. intros _. rewrite Hp, !length_combine, Ha, Hb.
    simpl in *. lia.
  - split; [reflexivity|discriminate].
Qed.

(** ** Per-attack mode *)

Lemma plots_singles_bind {A B : Type} (n k : nat) (m : M A) (f : A -> M B) :
  plots_singles n m -> (forall a, plots_singles k (f a)) ->
  plots_singles (n + k) (bind m f).
Proof.
  intros Hm Hf s. unfold bind. destruct (Hm s) as (ps & Ht & Hle & Hok).
  destruct (m s) as [[a|e] s1]; simpl in *.
  - destruct (Hf a s1) as (qs & Ht' & Hle' & Hok').
    exists (ps ++ qs). rewrite Ht', Ht, map_app, app_assoc, length_app.
    specialize (Hok a eq_refl). repeat split; [lia|].
    intros b Hb. rewrite (Hok' b Hb). lia.
  - exists ps. repeat split; [exact Ht|lia|discriminate].
Qed.

Lemma plots_singles_cast {A : Type} (n k : nat) (m : M A) :
  n = k -> plots_singles n m -> plots_singles k m.
Proof. intros ->. auto. Qed.

Lemma plots_singles_none {A : Type} (m : M A) :
  (forall s, trace (snd (m s)) = trace s) -> plots_singles 0 m.
Proof.
  intros H s. exists []. simpl. rewrite app_nil_r. auto.
Qed.

Lemma plots_singles_for_each {A : Type} (body : A -> M unit) (l : list A) :
  (forall x, plots_singles 1 (body x)) ->
  plots_singles (List.length l) (for_each body l).
Proof.
  intros Hb. induction l as [|x l IH]; simpl.
  - apply plots_singles_none. reflexivity.
  - apply (plots_singles_bind 1 (List.length l)); auto.
Qed.

Lemma pure_no_exit_rbind {A B : Type} (r : result A) (f : A -> result B) :
  pure_no_exit r -> (forall a, pure_no_exit (f a)) -> pure_no_exit (rbind r f).
Proof.
  intros Hr Hf c. destruct r as [a|e]; simpl; [apply Hf|].
  intros H. inversion H; subst. apply (Hr c). reflexivity.
Qed.

Lemma raise_exit_cast {A B : Type} (e : exn) :
  pure_no_exit (@Raise A e) -> pure_no_exit (@Raise B e).
Proof.
  intros H c E. inversion E; subst. apply (H c). reflexivity.
Qed.

Lemma pure_no_exit_getitem {A : Type} (key : string) (field : option A) :
  pure_no_exit (getitem key field).
Proof. intros c. destruct field; discriminate. Qed.

Lemma pure_no_exit_ok {A : Type} (a : A) : pure_no_exit (Ok a).
Proof. intros c. discriminate. Qed.

Lemma no_exit_bind {A B : Type} (m : M A) (f : A -> M B) :
  no_exit m -> (forall a, no_exit (f a)) -> no_exit (bind m f).
Proof.
  intros Hm Hf s c. unfold bind. specialize (Hm s c).
  destruct (m s) as [[a|e] s1]; simpl in *; [apply Hf|].
  intros H. inversion H; subst. apply Hm. reflexivity.
Qed.

Lemma no_exit_lift {A : Type} (r : result A) : pure_no_exit r -> no_exit (lift r).
Proof. intros Hr s c. apply Hr. Qed.

Lemma no_exit_ret {A : Type} (a : A) : no_exit (ret a).
Proof. intros s c. discriminate. Qed.

Lemma no_exit_for_each {A : Type} (body : A -> M unit) (l : list A) :
  (forall x, no_exit (body x)) -> no_exit (for_each body l).
Proof.
  intros Hb. induction l as [|x l IH]; simpl.
  - apply no_exit_ret.
  - apply no_exit_bind; auto.
Qed.

Section SingleModeFacts.

Variable int_of_str : string -> option Z.
Variable args : Args.
Variables COLS ROWS : Z.

Hypothesis single_mode : aggressors_vs_victims_flag args = false.

Lemma flips_loop_no_exit i col ce acc :
  pure_no_exit (flips_loop int_of_str i col ce acc).
Proof.
  revert acc. induction ce as [|f ce IH]; intros acc; simpl.
  - apply pure_no_exit_ok.
  - apply pure_no_exit_rbind; [|intros c; apply IH].
    intros c. unfold py_int. destruct (int_of_str col); discriminate.
Qed.

Lemma cols_loop_no_exit i cols acc :
  pure_no_exit (cols_loop int_of_str i cols acc).
Proof.
  revert acc. induction cols as [|[col ce] cols IH]; intros acc; simpl.
  - apply pure_no_exit_ok.
  - apply pure_no_exit_rbind; [apply flips_loop_no_exit|intros a; apply IH].
Qed.

Lemma rows_loop_no_exit rows acc :
  pure_no_exit (rows_loop int_of_str rows acc).
Proof.
  revert acc. induction rows as [|[i [row re]] rows IH]; intros acc; simpl.
  - apply pure_no_exit_ok.
  - apply pure_no_exit_rbind; [apply pure_no_exit_getitem|intros cols].
    apply pure_no_exit_rbind; [apply cols_loop_no_exit|intros a; apply IH].
Qed.

Lemma get_errors_in_rows_no_exit data : pure_no_exit (get_errors_in_rows data).
Proof.
  intros c. destruct data as [n|r]; simpl; [discriminate|].
  apply pure_no_exit_getitem.
Qed.

Lemma get_field_no_exit {A : Type} key (field : AttackRecord -> option A) v :
  pure_no_exit (get_field key field v).
Proof.
  intros c. destruct v as [n|r]; simpl; [discriminate|].
  apply pure_no_exit_getitem.
Qed.

Lemma plot_single_attack_no_exit data rows cols col_step t :
  no_exit (plot_single_attack int_of_str data rows cols col_step t).
Proof.
  unfold plot_single_attack.
  apply no_exit_bind; [apply no_exit_lift, get_errors_in_rows_no_exit|].
  intros e. apply no_exit_bind;
    [apply no_exit_lift; unfold flatten; apply rows_loop_no_exit|].
  intros flat s c. destruct (col_step =? 0); [discriminate|].
  destruct (fst (snd flat)); discriminate.
Qed.

Lemma classify_single_mode attack v s :
  trace (snd (classify args attack v s)) = trace s /\
  aggressors_vs_victims (snd (classify args attack v s))
  = aggressors_vs_victims s /\
  forall c, fst (classify args attack v s) <> Raise (SystemExit c).
Proof.
  unfold classify. rewrite single_mode.
  destruct (prefix "pair" attack).
  - unfold bind, lift, set_hammered_rows, set_title.
    pose proof (get_field_no_exit "hammer_row_1" hammer_row_1 v) as N1.
    pose proof (get_field_no_exit "hammer_row_2" hammer_row_2 v) as N2.
    destruct (get_field "hammer_row_1" hammer_row_1 v) as [h1|e]; simpl.
    2:{ repeat split. eapply raise_exit_cast. exact N1. }
    destruct (get_field "hammer_row_2" hammer_row_2 v) as [h2|e]; simpl.
    2:{ repeat split. eapply raise_exit_cast. exact N2. }
    repeat split. discriminate.
  - destruct (prefix "sequential" attack); [|repeat split; discriminate].
    unfold bind, lift, set_title, ret.
    pose proof (get_field_no_exit "row_pairs" row_pairs v) as N1.
    destruct (get_field "row_pairs" row_pairs v) as [rp|e]; simpl.
    2:{ repeat split. eapply raise_exit_cast. exact N1. }
    unfold first_item, last_item.
    destruct rp as [|p rp]; simpl; [repeat split; discriminate|].
    destruct (rev rp ++ [p]) as [|q qs]; simpl; repeat split; discriminate.
Qed.

Lemma plot_single_attack_raise data rows cols col_step t s e :
  fst (plot_single_attack int_of_str data rows cols col_step t s) = Raise e ->
  snd (plot_single_attack int_of_str data rows cols col_step t s) = s.
Proof.
  unfold plot_single_attack, bind, lift.
  destruct (get_errors_in_rows data) as [e0|x]; [|reflexivity].
  destruct (flatten int_of_str e0) as [flat|x]; [|reflexivity]. simpl.
  destruct (col_step =? 0); [reflexivity|].
  destruct (fst (snd flat)); [reflexivity|discriminate].
Qed.

Lemma plot_single_attack_ok_state data rows cols col_step t s :
  fst (plot_single_attack int_of_str data rows cols col_step t s) = Ok tt ->
  exists p,
    snd (plot_single_attack int_of_str data rows cols col_step t s)
    = mkState (hammered_rows s) (title s) (aggressors_vs_victims s)
              (trace s ++ [SinglePlot p]).
Proof.
  unfold plot_single_attack, bind, lift.
  destruct (get_errors_in_rows data) as [e0|x]; [|discriminate].
  destruct (flatten int_of_str e0) as [flat|x]; [|discriminate]. simpl.
  destruct (col_step =? 0); [discriminate|].
  destruct (fst (snd flat)); [discriminate|]. intros _.
  eexists. reflexivity.
Qed.

Lemma plot_single_attack_plots_singles data rows cols col_step t :
  plots_singles 1 (plot_single_attack int_of_str data rows cols col_step t).
Proof.
  intros s.
  pose proof (plot_single_attack_ok_state data rows cols col_step t s) as Hs.
  pose proof (plot_single_attack_raise data rows cols col_step t s) as Hr.
  destruct (plot_single_attack int_of_str data rows cols col_step t s)
    as [[[]|e] s2]; simpl in *.
  - destruct (Hs eq_refl) as (p & Hst). subst s2.
    exists [p]. simpl. repeat split; lia.
  - rewrite (Hr e eq_refl). exists []. simpl. rewrite app_nil_r.
    repeat split; [lia|discriminate].
Qed.

Lemma collect_or_plot_plots_singles v :
  plots_singles 1 (collect_or_plot int_of_str args COLS ROWS v).
Proof.
  unfold collect_or_plot. rewrite single_mode.
  apply (plots_singles_bind 0 1).
  { apply plots_singles_none. intros s.
    destruct (plot_columns args =? 0); reflexivity. }
  intros _. apply (plots_singles_bind 0 1).
  { apply plots_singles_none. intros s. unfold read_title.
    destruct (title s); reflexivity. }
  intros t. apply plot_single_attack_plots_singles.
Qed.

Lemma collect_or_plot_no_exit v :
  no_exit (collect_or_plot int_of_str args COLS ROWS v).
Proof.
  unfold collect_or_plot. rewrite single_mode.
  apply no_exit_bind.
  { intros s c. destruct (plot_columns args =? 0); discriminate. }
  intros _. apply no_exit_bind.
  { intros s c. unfold read_title. destruct (title s); discriminate. }
  intros t. apply plot_single_attack_no_exit.
Qed.

(** One record in per-attack mode: one plot when it returns, none when it
    raises. *)
Lemma attack_body_plots_singles item :
  plots_singles 1 (attack_body int_of_str args COLS ROWS item).
Proof.
  unfold attack_body. apply (plots_singles_bind 0 1).
  - apply plots_singles_none. intros s. apply classify_single_mode.
  - intros _. apply collect_or_plot_plots_singles.
Qed.

Lemma attack_body_no_exit item :
  no_exit (attack_body int_of_str args COLS ROWS item).
Proof.
  unfold attack_body. apply no_exit_bind.
  - intros s. apply classify_single_mode.
  - intros _. apply collect_or_plot_no_exit.
Qed.

Lemma records_of_if_has (aset : AttackSetResult) :
  (if dict_has String.eqb "read_count" aset
   then dict_pop String.eqb "read_count" aset
   else aset)
  = records_of aset.
Proof.
  unfold records_of. destruct (dict_has String.eqb "read_count" aset) eqn:E;
    [reflexivity|].
  unfold dict_has in E. unfold dict_pop.
  induction aset as [|kv aset IH]; simpl in *; [reflexivity|].
  apply orb_false_iff in E. destruct E as [E1 E2]. rewrite E1. simpl.
  rewrite <- IH by exact E2. reflexivity.
Qed.

Lemma attack_set_body_plots_singles item :
  plots_singles (List.length (records_of (snd item)))
                (attack_set_body int_of_str args COLS ROWS item).
Proof.
  unfold attack_set_body. rewrite records_of_if_has, single_mode.
  apply (plots_singles_bind 0 (List.length (records_of (snd item)))).
  { apply plots_singles_none. reflexivity. }
  intros _.
  apply (plots_singles_cast (List.length (records_of (snd item)) + 0));
    [lia|].
  apply (plots_singles_bind (List.length (records_of (snd item))) 0).
  - apply plots_singles_for_each. apply attack_body_plots_singles.
  - intros _. apply plots_singles_none. reflexivity.
Qed.

Lemma walk_plots_singles log_data :
  plots_singles (record_count log_data) (walk int_of_str args COLS ROWS log_data).
Proof.
  unfold walk, record_count. induction log_data as [|item log_data IH]; simpl.
  - apply plots_singles_none. reflexivity.
  - apply (plots_singles_bind
             (List.length (records_of (snd item)))
             (list_sum (map (fun item => List.length (records_of (snd item)))
                            log_data)));
      [apply attack_set_body_plots_singles|].
    intros _. exact IH.
Qed.

(** X15. In per-attack mode a run shows single-attack plots and nothing
    else (no diagnostic, no aggregate plot), however it ends: at most one
    per record of the log, and exactly one per record when the walk
    reaches the end of the log. *)
Theorem single_mode_one_plot_per_record (log_data : AttackLog) :
  exists plots,
    trace (snd (main int_of_str args COLS ROWS log_data))
    = map SinglePlot plots /\
    (List.length plots <= record_count log_data)%nat /\
    (fst (main int_of_str args COLS ROWS log_data) = Ok tt ->
     List.length plots = record_count log_data).
Proof.
  unfold main.
  destruct (walk_plots_singles log_data init_state) as (ps & Ht & Hle & Hok).
  exists ps. simpl in Ht. repeat split; auto. apply Hok.
Qed.

(** X16. In per-attack mode [exit()] is never reached: a run ends either
    normally or in an uncaught exception other than [SystemExit], so its
    exit status is 0 exactly when the whole log was walked. *)
Theorem single_mode_exit_status (log_data : AttackLog) :
  (forall c,
      fst (main int_of_str args COLS ROWS log_data) <> Raise (SystemExit c)) /\
  (exit_status (fst (main int_of_str args COLS ROWS log_data)) = 0
   <-> fst (main int_of_str args COLS ROWS log_data) = Ok tt).
Proof.
  assert (Hn : forall c,
             fst (main int_of_str args COLS ROWS log_data)
             <> Raise (SystemExit c)).
  { unfold main, walk. intros c. apply no_exit_for_each. intros item.
    unfold attack_set_body. rewrite single_mode.
    apply no_exit_bind; [intros s c'; discriminate|]. intros _.
    apply no_exit_bind; [|intros _; apply no_exit_ret].
    apply no_exit_for_each. apply attack_body_no_exit. }
  split; [exact Hn|].
  destruct (fst (main int_of_str args COLS ROWS log_data)) as [[]|e].
  - split; reflexivity.
  - split; [|discriminate]. destruct e; simpl; try discriminate.
    exfalso. apply (Hn code). reflexivity.
Qed.

Lemma plot_single_attack_zero_step data rows cols t s :
  fst (plot_single_attack int_of_str data rows cols 0 t s) <> Ok tt.
Proof.
  unfold plot_single_attack, bind, lift.
  destruct (get_errors_in_rows data) as [e0|x]; [|discriminate].
  destruct (flatten int_of_str e0) as [flat|x]; discriminate.
Qed.

Lemma collect_or_plot_zero_step v s :
  plot_columns args = 0 \/ COLS / plot_columns args = 0 ->
  exists e,
    collect_or_plot int_of_str args COLS ROWS v s = (Raise e, s).
Proof.
  intros Hz. unfold collect_or_plot. rewrite single_mode.
  unfold bind, raise, ret.
  destruct (Z.eqb_spec (plot_columns args) 0) as [|Hne]; [eauto|].
  destruct Hz as [|Hz]; [contradiction|].
  unfold read_title. destruct (title s) as [t|]; [|eauto].
  rewrite Hz.
  pose proof (plot_single_attack_zero_step v ROWS COLS t s) as Hno.
  pose proof (plot_single_attack_raise v ROWS COLS 0 t s) as Hr.
  destruct (plot_single_attack int_of_str v ROWS COLS 0 t s)
    as [[[]|e] s2]; simpl in *.
  - contradiction.
  - rewrite (Hr e eq_refl). eauto.
Qed.

Lemma attack_body_zero_step item s :
  plot_columns args = 0 \/ COLS / plot_columns args = 0 ->
  exists e s',
    attack_body int_of_str args COLS ROWS item s = (Raise e, s') /\
    trace s' = trace s.
Proof.
  intros Hz. unfold attack_body, bind.
  destruct (classify_single_mode (fst item) (snd item) s) as (Ht & _ & _).
  destruct (classify args (fst item) (snd item) s) as [[[]|e] s1];
    simpl in Ht.
  - destruct (collect_or_plot_zero_step (snd item) s1 Hz) as [e He].
    rewrite He. eauto.
  - eauto.
Qed.

Lemma attack_set_body_zero_step item s :
  plot_columns args = 0 \/ COLS / plot_columns args = 0 ->
  exists r s',
    attack_set_body int_of_str args COLS ROWS item s = (r, s') /\
    trace s' = trace s /\
    (r = Ok tt <-> records_of (snd item) = []).
Proof.
  intros Hz. unfold attack_set_body.
  rewrite records_of_if_has, single_mode. unfold bind, set_table, ret.
  destruct (records_of (snd item)) as [|r rs]; simpl.
  - eexists _, _. split; [reflexivity|]. simpl. repeat split.
  - unfold bind.
    destruct (attack_body_zero_step r
                (mkState (hammered_rows s) (title s) [] (trace s)) Hz)
      as (e & s' & -> & Ht).
    eexists _, _. split; [reflexivity|]. split; [exact Ht|].
    split; discriminate.
Qed.

Lemma walk_zero_step log_data s :
  plot_columns args = 0 \/ COLS / plot_columns args = 0 ->
  trace (snd (walk int_of_str args COLS ROWS log_data s)) = trace s /\
  (fst (walk int_of_str args COLS ROWS log_data s) = Ok tt
   <-> record_count log_data = 0%nat).
Proof.
  intros Hz. unfold walk, record_count. revert s.
  induction log_data as [|item log_data IH]; intros s; simpl.
  - split; [reflexivity|]. split; reflexivity.
  - unfold bind.
    destruct (attack_set_body_zero_step item s Hz) as (r & s' & -> & Ht & Hr).
    destruct r as [[]|e].
    + destruct Hr as [Hr _]. rewrite (Hr eq_refl). simpl.
      destruct (IH s') as [Ht' Hok]. rewrite Ht', Ht. split; [reflexivity|].
      exact Hok.
    + simpl. split; [exact Ht|]. split; [discriminate|].
      intros Hsum. destruct (records_of (snd item)) as [|x xs] eqn:E.
      * destruct Hr as [_ Hr]. discriminate (Hr eq_refl).
      * simpl in Hsum. lia.
Qed.

(** X13. In per-attack mode, when [--plot-columns] is 0 or larger than
    the number of columns, so that the column step is 0, no plot is ever
    shown: the run ends in an exception at the first record it meets, and
    it ends normally only on a log without records. *)
Theorem zero_column_step_shows_nothing (log_data : AttackLog) :
  plot_columns args = 0 \/ COLS / plot_columns args = 0 ->
  trace (snd (main int_of_str args COLS ROWS log_data)) = [] /\
  (fst (main int_of_str args COLS ROWS log_data) = Ok tt
   <-> record_count log_data = 0%nat).
Proof.
  intros Hz. unfold main. apply (walk_zero_step log_data init_state Hz).
Qed.

End SingleModeFacts.

(** ** The [read_count] entry *)

Lemma filter_idempotent {A : Type} (f : A -> bool) (l : list A) :
  filter f (filter f l) = filter f l.
Proof.
  induction l as [|x l IH]; simpl; [reflexivity|].
  destruct (f x) eqn:E; simpl; [rewrite E, IH; reflexivity|exact IH].
Qed.

Lemma records_of_idempotent (aset : AttackSetResult) :
  records_of (records_of aset) = records_of aset.
Proof. apply filter_idempotent. Qed.

Lemma attack_set_body_records int_of_str args COLS ROWS
      (item : string * AttackSetResult) (s : state) :
  attack_set_body int_of_str args COLS ROWS (fst item, records_of (snd item)) s
  = attack_set_body int_of_str args COLS ROWS item s.
Proof.
  unfold attack_set_body. cbn [snd].
  rewrite !records_of_if_has, records_of_idempotent. reflexivity.
Qed.

(** X14. The [read_count] entries of a log have no influence on a run, in
    either mode: with every one of them taken out of the log, wherever it
    stands in its attack set, the run ends the same way, in the same state
    and with the same plots and diagnostics. *)
Theorem read_count_is_ignored int_of_str args COLS ROWS
        (log_data : AttackLog) :
  main int_of_str args COLS ROWS (without_read_count log_data)
  = main int_of_str args COLS ROWS log_data.
Proof.
  unfold main, walk, without_read_count. generalize init_state.
  induction log_data as [|item log_data IH]; intros s; simpl; [reflexivity|].
  unfold bind. rewrite attack_set_body_records.
  destruct (attack_set_body int_of_str args COLS ROWS item s) as [[[]|e] s1];
    [apply IH|reflexivity].
Qed.

(** ** Aggregate mode *)

Lemma dict_get_set (V : Type) (k k0 : Z) (v : V) (d : list (Z * V)) :
  dict_get Z.eqb k0 (dict_set Z.eqb k v d)
  = if Z.eqb k0 k then Some v else dict_get Z.eqb k0 d.
Proof.
  destruct (Z.eqb_spec k0 k) as [->|Hne].
  - apply dict_get_set_same.
  - apply dict_get_set_other. exact Hne.
Qed.



Lemma data_loop_no_victims (data : table) (acc : hist_lists) :
  Forall (fun av => snd av = []) data -> data_loop data acc = Ok acc.
Proof.
  induction 1 as [|[a vs] data Hv _ IH]; simpl; [reflexivity|].
  simpl in Hv. subst vs. simpl. exact IH.
Qed.

Lemma Forall_dict_set (V : Type) (P : Z * V -> Prop) (k : Z) (v : V)
      (d : list (Z * V)) :
  (forall k', P (k', v)) -> Forall P d -> Forall P (dict_set Z.eqb k v d).
Proof.
  intros Hv. induction 1 as [|[k' v'] d Hx Hd IH]; simpl.
  - constructor; [apply Hv|constructor].
  - destruct (Z.eqb k k'); constructor; auto.
Qed.

Section AggregateModeFacts.

Variable int_of_str : string -> option Z.
Variable args : Args.
Variables COLS ROWS : Z.

Hypothesis aggregate_mode : aggressors_vs_victims_flag args = true.

(** A qualifying record returns, having written its entries under its
    hammered row and shown nothing. *)
Lemma attack_body_stored item R e s :
  stored_by item = Some (R, e) ->
  exists s',
    attack_body int_of_str args COLS ROWS item s = (Ok tt, s') /\
    aggressors_vs_victims s' = dict_set Z.eqb R e (aggressors_vs_victims s) /\
    trace s' = trace s.
Proof.
  destruct item as [name v]. unfold stored_by. simpl.
  destruct v as [n|r]; [discriminate|].
  destruct (hammer_row_1 r) as [h1|] eqn:H1; [|discriminate].
  destruct (hammer_row_2 r) as [h2|] eqn:H2; [|discriminate].
  destruct (errors_in_rows r) as [e0|] eqn:He; [|discriminate].
  destruct (prefix "pair" name) eqn:Hp; [|discriminate].
  destruct (Z.eqb_spec h1 h2) as [<-|]; [|discriminate].
  simpl. intros H. inversion H; subst.
  rewrite (attack_body_pair int_of_str args COLS ROWS aggregate_mode
             name r R R e s Hp H1 H2 He).
  rewrite Z.eqb_refl. eexists. split; [reflexivity|]. split; reflexivity.
Qed.

(** X17. In aggregate mode the walk of an attack set of qualifying
    records returns without showing anything, and then the table holds
    under every row [R] the victim entries of the last record of the set
    that hammers [R], and what it held before when no record hammers [R]:
    writing under one aggressor leaves the other aggressors alone. *)
Theorem table_after_qualifying_records (l : AttackSetResult) (s : state) :
  forallb qualifying l = true ->
  exists s',
    for_each (attack_body int_of_str args COLS ROWS) l s = (Ok tt, s') /\
    trace s' = trace s /\
    forall R,
      dict_get Z.eqb R (aggressors_vs_victims s')
      = match last_stored R l with
        | Some e => Some e
        | None => dict_get Z.eqb R (aggressors_vs_victims s)
        end.
Proof.
  revert s. induction l as [|item l IH]; intros s Hq; simpl.
  - exists s. repeat split.
  - simpl in Hq. apply andb_true_iff in Hq. destruct Hq as [Hi Hl].
    unfold qualifying in Hi.
    destruct (stored_by item) as [[R0 e0]|] eqn:Es; [|discriminate].
    destruct (attack_body_stored item R0 e0 s Es) as (s1 & Hb & Ht1 & Htr1).
    destruct (IH s1 Hl) as (s' & Hw & Htr & Hget).
    exists s'. unfold bind. rewrite Hb. split; [exact Hw|].
    split; [congruence|]. intros R. rewrite Hget, Ht1, dict_get_set.
    destruct (last_stored R l); [reflexivity|].
    destruct (Z.eqb R R0); reflexivity.
Qed.


Lemma attack_set_body_aggregate (item : string * AttackSetResult)
      (s s1 : state) :
  for_each (attack_body int_of_str args COLS ROWS) (records_of (snd item))
           (mkState (hammered_rows s) (title s) [] (trace s))
  = (Ok tt, s1) ->
  attack_set_body int_of_str args COLS ROWS item s
  = plot_aggressors_vs_victims (aggressors_vs_victims s1) (annotate args) s1.
Proof.
  intros H. unfold attack_set_body.
  rewrite records_of_if_has, aggregate_mode.
  unfold bind, set_table, read_table. rewrite H. reflexivity.
Qed.



(** X19. In aggregate mode, an attack set without a single victim entry
    (no record at all, or qualifying records whose [errors_in_rows] are all
    empty) is not rendered: its walk ends in the ValueError of [min] on an
    empty sequence, with nothing shown. *)
Theorem aggregate_set_without_victims
        (name : string) (aset : AttackSetResult) (s : state) :
  forallb qualifying (records_of aset) = true ->
  table_entries (stored_list (records_of aset)) = [] ->
  fst (attack_set_body int_of_str args COLS ROWS (name, aset) s)
  = Raise (ValueError "min() arg is an empty sequence") /\
  trace (snd (attack_set_body int_of_str args COLS ROWS (name, aset) s))
  = trace s.
Proof.
  intros Hq He.
  set (s0 := mkState (hammered_rows s) (title s) [] (trace s)).
  assert (Hinv : forall l s1,
             forallb qualifying l = true ->
             table_entries (stored_list l) = [] ->
             Forall (fun av : Z * ErrorsInRows => snd av = [])
                    (aggressors_vs_victims s1) ->
             exists s2,
               for_each (attack_body int_of_str args COLS ROWS) l s1
               = (Ok tt, s2) /\
               trace s2 = trace s1 /\
               Forall (fun av : Z * ErrorsInRows => snd av = [])
                      (aggressors_vs_victims s2)).
  { clear - aggregate_mode.
    induction l as [|item l IH]; intros s1 Hq He Hall; simpl.
    - exists s1. repeat split. exact Hall.
    - simpl in Hq. apply andb_true_iff in Hq. destruct Hq as [Hi Hl].
      unfold qualifying in Hi. unfold table_entries, stored_list in *.
      simpl in He.
      destruct (stored_by item) as [[R0 e0]|] eqn:Es; [|discriminate].
      simpl in He. apply app_eq_nil in He. destruct He as [He0 He].
      subst e0.
      destruct (attack_body_stored item R0 [] s1 Es) as (sa & Hb & Ht & Htr).
      destruct (IH sa Hl He) as (s2 & Hw & Htr2 & Hall2).
      { rewrite Ht. apply Forall_dict_set; [reflexivity|exact Hall]. }
      exists s2. unfold bind. rewrite Hb. split; [exact Hw|].
      split; [congruence|exact Hall2]. }
  destruct (Hinv (records_of aset) s0 Hq He) as (s2 & Hw & Htr & Hall).
  { constructor. }
  rewrite (attack_set_body_aggregate (name, aset) s s2 Hw).
  unfold plot_aggressors_vs_victims, bind, lift.
  rewrite (data_loop_no_victims _ _ Hall). simpl. split; [reflexivity|].
  exact Htr.
Qed.

End AggregateModeFacts.

(** ** Runs of the renderers and of the walker on the sample data *)

(** The pair record with victim row 101, plotted on its own. *)
Lemma plot_single_attack_shows_witness :
  exists e p,
    get_errors_in_rows (Attack (pair_record 100 100 errors_101)) = Ok e /\
    snd (plot_single_attack dec_int (Attack (pair_record 100 100 errors_101))
                            16384 1024 32 "Hammered rows: (100, 100)"
                            init_state)
    = mkState (hammered_rows init_state) (title init_state)
              (aggressors_vs_victims init_state)
              (trace init_state ++ [SinglePlot p]) /\
    sp_title p = "Hammered rows: (100, 100)" /\
    sp_row_labels p = map fst e /\
    sp_yticks p = seq 0 (List.length e) /\
    List.length (sp_yticks p) = List.length (sp_row_labels p) /\
    flatten dec_int e = Ok (sp_row_labels p, (sp_row_vals p, sp_col_vals p)).
Proof.
  exact (plot_single_attack_shows dec_int
           (Attack (pair_record 100 100 errors_101)) 16384 1024 32
           "Hammered rows: (100, 100)" init_state eq_refl).
Defined.

(** A record whose only row has an empty column. *)
Lemma plot_single_attack_no_flips_witness :
  plot_single_attack dec_int (Attack (pair_record 100 100 [("7", row_quiet)]))
                     16384 1024 32 "Hammered rows: (100, 100)" init_state
  = (Raise (ValueError "min() arg is an empty sequence"), init_state).
Proof.
  apply (plot_single_attack_no_flips dec_int
           (Attack (pair_record 100 100 [("7", row_quiet)]))
           [("7", row_quiet)] 16384 1024 32 "Hammered rows: (100, 100)"
           init_state);
    [reflexivity | reflexivity | reflexivity | discriminate].
Defined.

(** The table with the two victims of row 200. *)
Lemma data_loop_lists_witness :
  aggressors (mkHistLists [200; 200] [201; 202] [3; 1]
                          [(200, 201, 3); (200, 202, 1)])
  = flat_map (fun av => repeat (fst av) (List.length (snd av))) table_200 /\
  map Some [201; 202] = map (fun v => re_row (snd v)) (table_entries table_200) /\
  map Some [3; 1]
  = map (fun v => re_bitflips (snd v)) (table_entries table_200) /\
  [(200, 201, 3); (200, 202, 1)]
  = combine (combine [200; 200] [201; 202]) [3; 1] /\
  List.length [200; 200] = List.length (table_entries table_200) /\
  List.length [201; 202] = List.length (table_entries table_200) /\
  List.length [3; 1] = List.length (table_entries table_200).
Proof.
  exact (data_loop_lists table_200
           (mkHistLists [200; 200] [201; 202] [3; 1]
                        [(200, 201, 3); (200, 202, 1)]) eq_refl).
Defined.

(** The same table rendered: two victim bins, one aggressor bin. *)
Lemma aggregate_plot_bins_witness :
  exists p,
    snd (plot_aggressors_vs_victims table_200 "color" init_state)
    = mkState (hammered_rows init_state) (title init_state)
              (aggressors_vs_victims init_state)
              (trace init_state ++ [AggregatePlot p]) /\
    ap_bins p = (py_max (ap_victims p) - py_min (ap_victims p) + 1,
                 py_max (ap_aggressors p) - py_min (ap_aggressors p) + 1) /\
    1 <= fst (ap_bins p) /\
    1 <= snd (ap_bins p) /\
    Forall (fun v => py_min (ap_victims p) <= v
                     < py_min (ap_victims p) + fst (ap_bins p))
           (ap_victims p) /\
    Forall (fun a => py_min (ap_aggressors p) <= a
                     < py_min (ap_aggressors p) + snd (ap_bins p))
           (ap_aggressors p).
Proof.
  exact (aggregate_plot_bins table_200 "color" init_state eq_refl).
Defined.

(** The same table rendered under [--annotate bitflips]. *)
Lemma aggregate_plot_texts_witness :
  exists p,
    trace (snd (plot_aggressors_vs_victims table_200 "bitflips" init_state))
    = trace init_state ++ [AggregatePlot p] /\
    ap_texts p
    = (if String.eqb "bitflips" "bitflips"
       then combine (combine (ap_aggressors p) (ap_victims p)) (ap_bitflips p)
       else []) /\
    (String.eqb "bitflips" "bitflips" = true ->
     List.length (ap_texts p) = List.length (ap_victims p)).
Proof.
  exact (aggregate_plot_texts table_200 "bitflips" init_state eq_refl).
Defined.

(** 2048 plot columns over 1024 columns: nothing is shown. *)
Lemma zero_column_step_shows_nothing_witness :
  trace (snd (main dec_int wide_args 1024 16384 log_two_sets)) = [] /\
  (fst (main dec_int wide_args 1024 16384 log_two_sets) = Ok tt
   <-> record_count log_two_sets = 0%nat).
Proof.
  exact (zero_column_step_shows_nothing dec_int wide_args 1024 16384 eq_refl
           log_two_sets (or_intror eq_refl)).
Defined.

(** The log of two attack sets in per-attack mode. *)
Lemma single_mode_one_plot_per_record_witness :
  exists plots,
    trace (snd (main dec_int single_args 1024 16384 log_two_sets))
    = map SinglePlot plots /\
    (List.length plots <= record_count log_two_sets)%nat /\
    (fst (main dec_int single_args 1024 16384 log_two_sets) = Ok tt ->
     List.length plots = record_count log_two_sets).
Proof.
  exact (single_mode_one_plot_per_record dec_int single_args 1024 16384
           eq_refl log_two_sets).
Defined.

(** The log with an unrecognized record alone, in per-attack mode. *)
Lemma single_mode_exit_status_witness :
  (forall c,
      fst (main dec_int single_args 1024 16384 log_unknown_alone)
      <> Raise (SystemExit c)) /\
  (exit_status (fst (main dec_int single_args 1024 16384 log_unknown_alone)) = 0
   <-> fst (main dec_int single_args 1024 16384 log_unknown_alone) = Ok tt).
Proof.
  exact (single_mode_exit_status dec_int single_args 1024 16384 eq_refl
           log_unknown_alone).
Defined.

(** The two records hammering row 200, from the fresh state. *)
Lemma table_after_qualifying_records_witness :
  exists s',
    for_each (attack_body dec_int aggregate_args 1024 16384)
             (records_of set_same_aggressor) init_state = (Ok tt, s') /\
    trace s' = trace init_state /\
    forall R,
      dict_get Z.eqb R (aggressors_vs_victims s')
      = match last_stored R (records_of set_same_aggressor) with
        | Some e => Some e
        | None => dict_get Z.eqb R (aggressors_vs_victims init_state)
        end.
Proof.
  exact (table_after_qualifying_records dec_int aggregate_args 1024 16384
           eq_refl (records_of set_same_aggressor) init_state eq_refl).
Defined.


(** A pair record without flips, in aggregate mode. *)
Lemma aggregate_set_without_victims_witness :
  fst (attack_set_body dec_int aggregate_args 1024 16384
                       ("1000", set_no_flips) init_state)
  = Raise (ValueError "min() arg is an empty sequence") /\
  trace (snd (attack_set_body dec_int aggregate_args 1024 16384
                              ("1000", set_no_flips) init_state))
  = trace init_state.
Proof.
  exact (aggregate_set_without_victims dec_int aggregate_args 1024 16384
           eq_refl "1000" set_no_flips init_state eq_refl eq_refl).
Defined.
